(** * Automatic git commit workflow: a shallow embedding

    The development follows [auto_commit.py] (class [AutoGitCommitHandler])
    and [enhanced_git_automation.py] (classes [IntelligentCommitGenerator],
    [MergeConflictPrevention], [EnhancedGitAutomation] and the nested
    [GitAutomationHandler]).

    Python values are embedded as follows.
    - A [str] is the list of its Unicode code points, so that [len] is
      [length] and slicing is [firstn]/[skipn].
    - Methods that run subprocesses, sleep, print or read the clock are
      computations of a state-and-exception monad over an abstract world.
    - [threading.Timer] objects and the interleaving of their callbacks are
      a transition system over the same method bodies. *)

From Stdlib Require Import String Ascii Decimal.
From Stdlib Require Import List ZArith NArith Lia Bool.
Import ListNotations.

Local Open Scope Z_scope.

(** ** Python strings *)

Definition str := list N.

Definition lit (s : string) : str :=
  map N_of_ascii (list_ascii_of_string s).

Definition len (s : str) : Z := Z.of_nat (length s).

Definition str_eqb (a b : str) : bool :=
  if list_eq_dec N.eq_dec a b then true else false.

Fixpoint startswith (s p : str) : bool :=
  match p, s with
  | [], _ => true
  | _ :: _, [] => false
  | x :: p', y :: s' => N.eqb x y && startswith s' p'
  end.

Definition endswith (s p : str) : bool := startswith (rev s) (rev p).

(** [sub in s] *)
Fixpoint contains (s sub : str) : bool :=
  startswith s sub ||
  match s with
  | [] => false
  | _ :: s' => contains s' sub
  end.

(** [s[:k]], with Python's reading of a negative bound. *)
Definition slice_to (s : str) (k : Z) : str :=
  if k <? 0 then firstn (Z.to_nat (len s + k)) s else firstn (Z.to_nat k) s.

(** [s[k:]] for a literal [k >= 0]. *)
Definition slice_from (s : str) (k : nat) : str := skipn k s.

(** [sep.join(parts)] *)
Fixpoint join (sep : str) (parts : list str) : str :=
  match parts with
  | [] => []
  | [p] => p
  | p :: rest => p ++ sep ++ join sep rest
  end.

(** Code points for which [str.isspace] holds; [str.strip] removes them. *)
Definition isspace (c : N) : bool :=
  ((9 <=? c) && (c <=? 13) || (28 <=? c) && (c <=? 32) ||
   (c =? 133) || (c =? 160) || (c =? 5760) ||
   (8192 <=? c) && (c <=? 8202) || (c =? 8232) || (c =? 8233) ||
   (c =? 8239) || (c =? 8287) || (c =? 12288))%N.

Fixpoint lstrip (s : str) : str :=
  match s with
  | [] => []
  | c :: s' => if isspace c then lstrip s' else s
  end.

Definition rstrip (s : str) : str := rev (lstrip (rev s)).

Definition strip (s : str) : str := rstrip (lstrip s).

(** [s.split(sep)] for a one-character separator. *)
Fixpoint split (sep : N) (s : str) : list str :=
  match s with
  | [] => [[]]
  | c :: s' =>
      if N.eqb c sep then [] :: split sep s'
      else match split sep s' with
           | [] => [[c]]
           | h :: t => (c :: h) :: t
           end
  end.

Definition newline : N := 10%N.

(** Truthiness of a string: the empty string is false. *)
Definition truthy (s : str) : bool :=
  match s with [] => false | _ :: _ => true end.

Fixpoint digits_of_uint (u : Decimal.uint) : str :=
  match u with
  | Decimal.Nil => []
  | Decimal.D0 u' => 48%N :: digits_of_uint u'
  | Decimal.D1 u' => 49%N :: digits_of_uint u'
  | Decimal.D2 u' => 50%N :: digits_of_uint u'
  | Decimal.D3 u' => 51%N :: digits_of_uint u'
  | Decimal.D4 u' => 52%N :: digits_of_uint u'
  | Decimal.D5 u' => 53%N :: digits_of_uint u'
  | Decimal.D6 u' => 54%N :: digits_of_uint u'
  | Decimal.D7 u' => 55%N :: digits_of_uint u'
  | Decimal.D8 u' => 56%N :: digits_of_uint u'
  | Decimal.D9 u' => 57%N :: digits_of_uint u'
  end.

(** [str(n)] for a non-negative integer. *)
Definition str_of_nat (n : nat) : str := digits_of_uint (Nat.to_uint n).

(** [%02d]-style rendering used by [strftime]: left-padded with zeros. *)
Definition zero_pad (width : nat) (n : nat) : str :=
  let d := str_of_nat n in
  repeat 48%N (width - length d) ++ d.

(** ** The clock *)

Record datetime := {
  year : nat; month : nat; day : nat;
  hour : nat; minute : nat; second : nat
}.

(** [strftime("%Y-%m-%d %H:%M:%S")] *)
Definition strftime (t : datetime) : str :=
  zero_pad 4 (year t) ++ lit "-" ++ zero_pad 2 (month t) ++ lit "-" ++
  zero_pad 2 (day t) ++ lit " " ++ zero_pad 2 (hour t) ++ lit ":" ++
  zero_pad 2 (minute t) ++ lit ":" ++ zero_pad 2 (second t).

(** ** Subprocesses, exceptions and the world *)

(** [subprocess.CompletedProcess] with [capture_output=True, text=True]. *)
Record CompletedProcess := {
  returncode : Z;
  stdout : str;
  stderr : str
}.

(** A Python call either returns or raises an [Exception]; [Raise e]
    carries [str(e)], the text an f-string prints for the exception. *)
Inductive outcome (A : Type) : Type :=
| Ok (a : A)
| Raise (e : str).
Arguments Ok {A} a.
Arguments Raise {A} e.

(** Entries added to [os.environ] for a child process. *)
Definition environ := list (str * str).

(** The keyword arguments of [subprocess.run] that vary between calls. *)
Record run_opts := {
  cwd : option str;
  env : option environ
}.

Definition no_opts : run_opts := {| cwd := None; env := None |}.
Definition in_dir (d : str) : run_opts := {| cwd := Some d; env := None |}.
Definition with_env (e : environ) : run_opts := {| cwd := None; env := Some e |}.

(** What the programs take from the Python runtime and the operating
    system.  The world is whatever the subprocesses can observe and change:
    the repository, the remote, the file system. *)
Record Platform := {
  World : Type;
  (** [subprocess.run(argv, capture_output=True, text=True, ...)] *)
  subprocess_run : list str -> run_opts -> World -> outcome CompletedProcess * World;
  (** the world after [time.sleep(d)] *)
  time_passes : Z -> World -> World;
  (** [datetime.now()] *)
  datetime_now : World -> datetime;
  (** [time.time()], in the resolution of the clock *)
  time_time : World -> Z;
  (** [str.lower] and [str.upper], the Unicode case mappings *)
  str_lower : str -> str;
  str_upper : str -> str;
  (** [Path(p).name] *)
  path_name : str -> str;
  (** [Path(p).match(pattern)] *)
  path_match : str -> str -> bool;
  (** [template.format(timestamp=.., files_count=.., files=..)] *)
  str_format : str -> str -> nat -> str -> outcome str;
  (** [GitHubAuthManager.get_auth_config()], first component *)
  get_auth_config : World -> outcome environ * World;
  (** [p.exists() and time.time() - p.stat().st_mtime < age]; false when
      [stat] raises *)
  file_younger_than : str -> Z -> World -> bool
}.

(** Lines written with [print], one constructor per call site, with the
    values interpolated into the line. *)
Inductive notice :=
| StatusError (error : str)
| BranchNotAllowed (branch : str)
| Committing (files_count : nat)
| AddFailed (err : str)
| CommitFailed (err : str)
| CommittedAndPushed (message : str)
| CommittedPushFailed (err : str)
| CommitException (e : str)
| Preparing (message : str)
| ConflictCheckBlocked (message : str)
| Committed (message : str)
| Pushed
| PushFailed (err : str)
| ProcessingException (e : str)
| RetryingConflict (delay attempt max_retries : Z)
| FileChanged (event_type path : str).

(** What a run leaves behind, oldest first. *)
Inductive event :=
| Ran (argv : list str) (opts : run_opts) (result : outcome CompletedProcess)
| Slept (seconds : Z)
| Printed (line : notice).

Section Runtime.

Variable P : Platform.

(** The state a method runs in: the fields of [self] it may assign, the
    world, and the log. *)
Record state (O : Type) := {
  self : O;
  world : World P;
  log : list event
}.
Arguments self {O} s.
Arguments world {O} s.
Arguments log {O} s.

Definition M (O A : Type) : Type := state O -> outcome A * state O.

Definition ret {O A} (a : A) : M O A := fun s => (Ok a, s).

Definition bind {O A B} (m : M O A) (k : A -> M O B) : M O B :=
  fun s => match m s with
           | (Ok a, s') => k a s'
           | (Raise e, s') => (Raise e, s')
           end.

Definition raise {O A} (e : str) : M O A := fun s => (Raise e, s).

(** [try: m except Exception as e: handler e] *)
Definition try_except {O A} (m : M O A) (handler : str -> M O A) : M O A :=
  fun s => match m s with
           | (Ok a, s') => (Ok a, s')
           | (Raise e, s') => handler e s'
           end.

(** [try: m finally: cleanup] *)
Definition try_finally {O A} (m : M O A) (cleanup : state O -> state O) : M O A :=
  fun s => let (r, s') := m s in (r, cleanup s').

Definition emit {O} (ev : event) (s : state O) : state O :=
  {| self := self s; world := world s; log := log s ++ [ev] |}.

Definition print {O} (n : notice) : M O unit :=
  fun s => (Ok tt, emit (Printed n) s).

Definition run {O} (argv : list str) (opts : run_opts) : M O CompletedProcess :=
  fun s =>
    let (r, w) := subprocess_run P argv opts (world s) in
    (r, {| self := self s; world := w; log := log s ++ [Ran argv opts r] |}).

(** [time.sleep(d)]; a negative [d] raises [ValueError]. *)
Definition sleep {O} (d : Z) : M O unit :=
  fun s =>
    if d <? 0 then (Raise (lit "sleep length must be non-negative"), s)
    else (Ok tt, {| self := self s; world := time_passes P d (world s);
                    log := log s ++ [Slept d] |}).

Definition now {O} : M O datetime := fun s => (Ok (datetime_now P (world s)), s).

Definition get_self {O} : M O O := fun s => (Ok (self s), s).

Definition set_self {O} (o : O) : M O unit :=
  fun s => (Ok tt, {| self := o; world := world s; log := log s |}).

End Runtime.

Arguments self {P O} s.
Arguments world {P O} s.
Arguments log {P O} s.
Arguments ret {P O A} a.
Arguments bind {P O A B} m k.
Arguments raise {P O A} e.
Arguments try_except {P O A} m handler.
Arguments try_finally {P O A} m cleanup.
Arguments emit {P O} ev s.
Arguments print {P O} n.
Arguments run {P O} argv opts.
Arguments sleep {P O} d.
Arguments now {P O}.
Arguments get_self {P O}.
Arguments set_self {P O} o.

Notation "x <- m ;; k" := (bind m (fun x => k))
  (at level 61, m at next level, right associativity).
Notation "m ;;; k" := (bind m (fun _ => k))
  (at level 61, right associativity).
Notation "' pat <- m ;; k" :=
  (bind m (fun x => match x with pat => k end))
  (at level 61, pat pattern, m at next level, right associativity).

(** ** [IntelligentCommitGenerator] *)

(** The keys of the [commit_generation] dictionary that the generator reads
    with [config.get(key, default)]; [None] is an absent key. *)
Record generator_config := {
  include_timestamp : option bool;
  max_message_length : option Z
}.

Definition get {A} (o : option A) (default : A) : A :=
  match o with Some a => a | None => default end.

(** The keys of the [categories] dictionary, in insertion order. *)
Inductive category := Code | Config | Docs | Style | Test | Other.

Definition category_eqb (a b : category) : bool :=
  match a, b with
  | Code, Code | Config, Config | Docs, Docs
  | Style, Style | Test, Test | Other, Other => true
  | _, _ => false
  end.

(** Position of a key in the insertion order. *)
Definition category_index (c : category) : nat :=
  match c with
  | Code => 0 | Config => 1 | Docs => 2 | Style => 3 | Test => 4 | Other => 5
  end%nat.

(** A dictionary with category keys, as its items in iteration order. *)
Definition category_dict := list (category * nat).

Definition initial_categories : category_dict :=
  [(Code, 0); (Config, 0); (Docs, 0); (Style, 0); (Test, 0); (Other, 0)]%nat.

(** [d[k] += 1] *)
Fixpoint increment (k : category) (d : category_dict) : category_dict :=
  match d with
  | [] => []
  | (k', v) :: d' =>
      if category_eqb k' k then (k', S v) :: d' else (k', v) :: increment k d'
  end.

(** [d[k]], for a key that is present; 0 stands for an absent one. *)
Fixpoint item (d : category_dict) (k : category) : nat :=
  match d with
  | [] => 0%nat
  | (k', v) :: d' => if category_eqb k' k then v else item d' k
  end.

Definition code_extensions : list str :=
  map lit [".py"; ".js"; ".ts"; ".jsx"; ".tsx"; ".go"; ".rs"; ".java";
           ".cpp"; ".c"; ".h"]%string.
Definition config_extensions : list str :=
  map lit [".json"; ".yml"; ".yaml"; ".toml"; ".ini"; ".cfg"]%string.
Definition docs_extensions : list str :=
  map lit [".md"; ".txt"; ".rst"; ".doc"; ".docx"]%string.
Definition style_extensions : list str :=
  map lit [".css"; ".scss"; ".less"; ".sass"]%string.

(** [any(s.endswith(ext) for ext in exts)] *)
Definition any_endswith (s : str) (exts : list str) : bool :=
  existsb (endswith s) exts.

(** [max(keys, key=f)]: the first element among those with the largest key,
    [best] being the candidate so far. *)
Fixpoint max_by {A} (key : A -> nat) (best : A) (rest : list A) : A :=
  match rest with
  | [] => best
  | x :: rest' =>
      if (key best <? key x)%nat then max_by key x rest'
      else max_by key best rest'
  end.

Definition type_prefixes : list (str * str) :=
  [(lit "added", [0x2728; 0x20; 0x65B0; 0x589E]%N);
   (lit "modified", [0x1F4DD; 0x20; 0x4FEE; 0x6539]%N);
   (lit "deleted", [0x1F5D1; 0xFE0F; 0x20; 0x5220; 0x9664]%N);
   (lit "renamed", [0x1F4E6; 0x20; 0x91CD; 0x547D; 0x540D]%N);
   (lit "mixed", [0x1F504; 0x20; 0x6DF7; 0x5408; 0x53D8; 0x66F4]%N)].

Definition default_prefix : str := [0x1F504; 0x20; 0x53D8; 0x66F4]%N.

(** [d.get(k, default)] on a dictionary with string keys. *)
Fixpoint dict_get (d : list (str * str)) (k : str) (default : str) : str :=
  match d with
  | [] => default
  | (k', v) :: d' => if str_eqb k' k then v else dict_get d' k default
  end.

Definition category_names (c : category) : str :=
  match c with
  | Code => [0x4EE3; 0x7801]
  | Config => [0x914D; 0x7F6E]
  | Docs => [0x6587; 0x6863]
  | Style => [0x6837; 0x5F0F]
  | Test => [0x6D4B; 0x8BD5]
  | Other => [0x5176; 0x4ED6]
  end%N.

(** The text after the count: a space and the measure word for files. *)
Definition files_word : str := [0x20; 0x4E2A; 0x6587; 0x4EF6]%N.
Definition and_more : str := [0x20; 0x7B49]%N.

Section Generator.

Variable P : Platform.

(** The branch of the [if]/[elif] chain of [_categorize_files] that one
    path takes. *)
Definition classify (file_path : str) : category :=
  let file_lower := str_lower P file_path in
  let file_name := str_lower P (path_name P file_path) in
  if any_endswith file_lower code_extensions then Code
  else if any_endswith file_lower config_extensions then Config
  else if any_endswith file_lower docs_extensions then Docs
  else if any_endswith file_lower style_extensions then Style
  else if startswith file_name (lit "test_") ||
          endswith file_name (lit "_test.py") ||
          contains file_lower (lit "test") then Test
  else Other.

(** The dictionary after the loop, before the zero counts are dropped. *)
Definition count_files (files : list str) : category_dict :=
  fold_left (fun categories f => increment (classify f) categories)
            files initial_categories.

Definition _categorize_files (files : list str) : category_dict :=
  filter (fun kv => (0 <? snd kv)%nat) (count_files files).

(** [max(file_categories.keys(), key=lambda k: file_categories[k])], and
    [None] when the dictionary is empty and the [if] is not entered. *)
Definition main_category (file_categories : category_dict) : option category :=
  match map fst file_categories with
  | [] => None
  | k :: ks => Some (max_by (item file_categories) k ks)
  end.

Definition category_desc (files : list str) : str :=
  match main_category (_categorize_files files) with
  | Some c => lit " [" ++ category_names c ++ lit "]"
  | None => []
  end.

Definition file_desc (files : list str) : str :=
  if (length files =? 1)%nat then lit "1" ++ files_word
  else str_of_nat (length files) ++ files_word.

Definition file_list (files : list str) : str :=
  if (length files <=? 3)%nat then lit ": " ++ join (lit ", ") files
  else if (length files =? 4)%nat then lit ": " ++ join (lit ", ") files
  else lit ": " ++ join (lit ", ") (firstn 3 files) ++ and_more.

(** [''.join(message_parts)], the message before the length limit. *)
Definition assembled_message (cfg : generator_config) (timestamp : str)
    (change_type : str) (files : list str) : str :=
  let prefix := dict_get type_prefixes change_type default_prefix in
  let message_parts :=
    [prefix; file_desc files ++ category_desc files; file_list files] ++
    (if get (include_timestamp cfg) true
     then [lit " [" ++ timestamp ++ lit "]"] else []) in
  concat message_parts.

(** The last statement before [return]. *)
Definition limit_length (max_length : Z) (commit_message : str) : str :=
  if len commit_message >? max_length
  then slice_to commit_message (max_length - 3) ++ lit "..."
  else commit_message.

(** [generate_commit_message(change_type, files)]; the parameters [branch]
    and [context] are not read by the method. *)
Definition generate_commit_message {O} (cfg : generator_config)
    (change_type : str) (files : list str) : M P O str :=
  t <- now ;;
  let timestamp := strftime t in
  let commit_message := assembled_message cfg timestamp change_type files in
  let max_length := get (max_message_length cfg) 100 in
  ret (limit_length max_length commit_message).

End Generator.

(** ** [MergeConflictPrevention] *)

Record conflict_config := {
  max_retry_attempts : option Z;
  retry_delay : option Z
}.

Module Msg.
(** The fixed parts of the returned messages, as written in the source. *)
Definition fetch_failed : str :=
  [0x83B7; 0x53D6; 0x8FDC; 0x7A0B; 0x72B6; 0x6001; 0x5931; 0x8D25; 0x3A; 0x20]%N.
Definition local_branch : str := [0x672C; 0x5730; 0x5206; 0x652F; 0x20]%N.
Definition has_unpushed : str :=
  [0x20; 0x6709; 0x672A; 0x63A8; 0x9001; 0x7684; 0x63D0; 0x4EA4]%N.
Definition no_merge_base : str :=
  [0x65E0; 0x6CD5; 0x786E; 0x5B9A; 0x5408; 0x5E76; 0x57FA; 0x7840; 0x3A; 0x20]%N.
Definition potential_conflict : str :=
  [0x68C0; 0x6D4B; 0x5230; 0x6F5C; 0x5728; 0x51B2; 0x7A81; 0xFF1A]%N.
Definition no_conflict : str := [0x65E0; 0x51B2; 0x7A81]%N.
Definition cannot_check : str :=
  [0x65E0; 0x6CD5; 0x68C0; 0x67E5; 0x51B2; 0x7A81; 0x72B6; 0x6001]%N.
Definition check_exception : str :=
  [0x51B2; 0x7A81; 0x68C0; 0x67E5; 0x5F02; 0x5E38; 0x3A; 0x20]%N.
Definition ready_to_commit : str :=
  [0x65E0; 0x51B2; 0x7A81; 0xFF0C; 0x51C6; 0x5907; 0x63D0; 0x4EA4]%N.
Definition merged : str := [0x81EA; 0x52A8; 0x5408; 0x5E76; 0x6210; 0x529F]%N.
Definition auto_resolved : str :=
  [0x81EA; 0x52A8; 0x89E3; 0x51B3; 0x5408; 0x5E76; 0x51B2; 0x7A81]%N.
Definition resolve_manually : str :=
  [0x51B2; 0x7A81; 0x5904; 0x7406; 0x5931; 0x8D25; 0xFF0C; 0x8BF7; 0x624B;
   0x52A8; 0x89E3; 0x51B3; 0x3A; 0x20]%N.
Definition handling_exception : str :=
  [0x51B2; 0x7A81; 0x5904; 0x7406; 0x5F02; 0x5E38; 0x3A; 0x20]%N.
Definition max_retries_reached : str :=
  [0x8FBE; 0x5230; 0x6700; 0x5927; 0x91CD; 0x8BD5; 0x6B21; 0x6570]%N.
Definition not_a_repository : str :=
  [0x5F53; 0x524D; 0x76EE; 0x5F55; 0x4E0D; 0x662F; 0x47; 0x69; 0x74; 0x4ED3; 0x5E93]%N.
Definition status_failed : str :=
  [0x83B7; 0x53D6; 0x47; 0x69; 0x74; 0x72B6; 0x6001; 0x5931; 0x8D25; 0x3A; 0x20]%N.
Definition status_exception : str :=
  [0x83B7; 0x53D6; 0x47; 0x69; 0x74; 0x72B6; 0x6001; 0x5F02; 0x5E38; 0x3A; 0x20]%N.
Definition git_command_failed : str :=
  [0x47; 0x69; 0x74; 0x547D; 0x4EE4; 0x6267; 0x884C; 0x5931; 0x8D25; 0x3A; 0x20]%N.
End Msg.

Module Git.
(** The argument vectors the programs pass to [subprocess.run]. *)
Definition fetch : list str := map lit ["git"; "fetch"; "origin"]%string.
Definition show_current : list str :=
  map lit ["git"; "branch"; "--show-current"]%string.
Definition unpushed : list str :=
  map lit ["git"; "log"; "--oneline"; "origin/HEAD..HEAD"]%string.
Definition merge_base (target_branch : str) : list str :=
  map lit ["git"; "merge-base"; "HEAD"]%string ++ [lit "origin/" ++ target_branch].
Definition merge_tree (common_ancestor target_branch : str) : list str :=
  map lit ["git"; "merge-tree"; "--no-autostash"]%string ++
  [common_ancestor; lit "HEAD"; lit "origin/" ++ target_branch].
Definition pull : list str := map lit ["git"; "pull"; "--no-edit"]%string.
Definition add : list str := map lit ["git"; "add"; "."]%string.
Definition merge_commit : list str := map lit ["git"; "commit"; "--no-edit"]%string.
Definition commit (message : str) : list str :=
  map lit ["git"; "commit"; "-m"]%string ++ [message].
Definition push : list str := map lit ["git"; "push"]%string.
Definition push_to (branch : str) : list str :=
  map lit ["git"; "push"; "origin"]%string ++ [branch].
Definition rev_parse : list str := map lit ["git"; "rev-parse"; "--git-dir"]%string.
Definition status_v1 : list str :=
  map lit ["git"; "status"; "--porcelain=v1"]%string.
Definition status : list str := map lit ["git"; "status"; "--porcelain"]%string.
End Git.

(** How one pass through the body of a [for] loop ends: with a [return], or
    by falling through to the next iteration. *)
Inductive loop_exit (A : Type) : Type :=
| Return (a : A)
| Continue.
Arguments Return {A} a.
Arguments Continue {A}.

Section ConflictPrevention.

Variable P : Platform.
Variable cfg : conflict_config.

Definition ok (r : CompletedProcess) : bool := returncode r =? 0.

Definition check_for_conflicts {O} (target_branch : option str)
  : M P O (bool * str) :=
  try_except
    (fetch_result <- run Git.fetch no_opts ;;
     if negb (ok fetch_result)
     then ret (false, Msg.fetch_failed ++ stderr fetch_result)
     else
       branch_result <- run Git.show_current no_opts ;;
       let current_branch := strip (stdout branch_result) in
       let target_branch := get target_branch current_branch in
       unpushed_result <- run Git.unpushed no_opts ;;
       if ok unpushed_result && truthy (strip (stdout unpushed_result))
       then ret (true, Msg.local_branch ++ current_branch ++ Msg.has_unpushed)
       else
         merge_base_result <- run (Git.merge_base target_branch) no_opts ;;
         if negb (ok merge_base_result)
         then ret (false, Msg.no_merge_base ++ stderr merge_base_result)
         else
           let common_ancestor := strip (stdout merge_base_result) in
           check_result <- run (Git.merge_tree common_ancestor target_branch) no_opts ;;
           if ok check_result
           then
             if contains (stdout check_result) (lit "=======") ||
                contains (stdout check_result) (lit "<<<<<<<")
             then ret (true, Msg.potential_conflict ++ target_branch)
             else ret (false, Msg.no_conflict)
           else ret (false, Msg.cannot_check))
    (fun e => ret (false, Msg.check_exception ++ e)).

(** The [try] block of one iteration of [handle_conflicts]. *)
Definition attempt_body {O} (attempt max_retries : Z)
  : M P O (loop_exit (bool * str)) :=
  '(has_conflicts, reason) <- check_for_conflicts None ;;
  if negb has_conflicts then ret (Return (true, Msg.ready_to_commit))
  else
    pull_result <- run Git.pull no_opts ;;
    if ok pull_result then ret (Return (true, Msg.merged))
    else
      resolved <-
        (if contains (str_upper P (stdout pull_result)) (lit "CONFLICT")
         then
           resolve_result <- run Git.add no_opts ;;
           if ok resolve_result
           then
             merge_commit_result <- run Git.merge_commit no_opts ;;
             ret (ok merge_commit_result)
           else ret false
         else ret false) ;;
      if resolved : bool then ret (Return (true, Msg.auto_resolved))
      else if attempt <? max_retries - 1
      then
        print (RetryingConflict (get (retry_delay cfg) 2) (attempt + 1) max_retries) ;;;
        sleep (get (retry_delay cfg) 2) ;;;
        ret Continue
      else ret (Return (false, Msg.resolve_manually ++ stderr pull_result)).

(** One iteration: the [try] block and its [except Exception] handler. *)
Definition attempt_once {O} (attempt max_retries : Z)
  : M P O (loop_exit (bool * str)) :=
  try_except (attempt_body attempt max_retries)
    (fun e =>
       if attempt <? max_retries - 1
       then sleep (get (retry_delay cfg) 2) ;;; ret Continue
       else ret (Return (false, Msg.handling_exception ++ e))).

(** [for attempt in range(max_retries)], with [remaining] iterations left,
    followed by the [return] after the loop. *)
Fixpoint attempts_from {O} (remaining : nat) (attempt max_retries : Z)
  : M P O (bool * str) :=
  match remaining with
  | O => ret (false, Msg.max_retries_reached)
  | S remaining' =>
      r <- attempt_once attempt max_retries ;;
      match r with
      | Return v => ret v
      | Continue => attempts_from remaining' (attempt + 1) max_retries
      end
  end.

(** [max_retries or self.max_retry_attempts]: [None] and [0] are false. *)
Definition effective_retries (max_retries : option Z) : Z :=
  match max_retries with
  | Some n => if n =? 0 then get (max_retry_attempts cfg) 3 else n
  | None => get (max_retry_attempts cfg) 3
  end.

Definition handle_conflicts {O} (max_retries : option Z) : M P O (bool * str) :=
  let max_retries := effective_retries max_retries in
  attempts_from (Z.to_nat max_retries) 0 max_retries.

End ConflictPrevention.

(** ** File system events *)

(** The attributes of a watchdog event that the handlers read. *)
Record fs_event := {
  is_directory : bool;
  src_path : str;
  fs_event_type : str
}.

(** [threading.Timer(interval, callback)]: the callback is the flush method
    of the handler that created it, so a timer is its interval. *)
Record timer := { interval : Z }.

(** ** [EnhancedGitAutomation] *)

Module Enhanced.

(** An item of [git_info['changes']]. *)
Record change := {
  file : str;
  type : str;
  status_code : str
}.

Record git_info := {
  current_branch : str;
  changes : list change;
  has_changes : bool;
  total_changes : nat
}.

(** An item of [pending_changes]. *)
Record pending_change := {
  event_type : str;
  file_path : str;
  timestamp : Z
}.

(** The attributes of the automation object that are assigned after
    [__init__]. *)
Record automation := {
  pending_changes : list pending_change;
  processing_changes : bool;
  last_commit_time : Z
}.

(** The entries of the configuration that the modelled methods read. *)
Record config := {
  commit_generation : generator_config;
  conflict_handling : conflict_config;
  conflict_handling_enabled : bool;
  auto_push : bool;
  commit_delay : Z;
  min_file_age : Z;
  ignore_patterns : list str
}.

(** [status_code[0] == c] on a non-empty line. *)
Definition first_is (c : string) (s : str) : bool :=
  match s with
  | x :: _ => str_eqb [x] (lit c)
  | [] => false
  end.

(** The body of the parsing loop for one non-empty line. *)
Definition parse_status_line (line : str) : change :=
  let status_code := firstn 2 line in
  let file_path := slice_from line 3 in
  let change_type :=
    if first_is "A" status_code || str_eqb status_code (lit "??") then lit "added"
    else if first_is "D" status_code then lit "deleted"
    else if first_is "R" status_code then lit "renamed"
    else if first_is "C" status_code then lit "copied"
    else lit "modified" in
  {| file := file_path; type := change_type; status_code := status_code |}.

(** The non-empty lines of [text.strip().split('\n')]. *)
Definition nonempty_lines (text : str) : list str :=
  filter truthy (split newline (strip text)).

Section Methods.

Variable P : Platform.
Variable cfg : config.

Definition get_git_status {O} : M P O (option git_info * option str) :=
  try_except
    (repo_result <- run Git.rev_parse no_opts ;;
     if negb (ok repo_result) then ret (None, Some Msg.not_a_repository)
     else
       branch_result <- run Git.show_current no_opts ;;
       let current_branch :=
         if ok branch_result then strip (stdout branch_result) else lit "unknown" in
       status_result <- run Git.status_v1 no_opts ;;
       if negb (ok status_result)
       then ret (None, Some (Msg.status_failed ++ stderr status_result))
       else
         let changes := map parse_status_line (nonempty_lines (stdout status_result)) in
         ret (Some {| current_branch := current_branch;
                      changes := changes;
                      has_changes := (0 <? length changes)%nat;
                      total_changes := length changes |}, None))
    (fun e => ret (None, Some (Msg.status_exception ++ e))).

Definition should_process_file (file_path : str) (w : World P) : bool :=
  if file_younger_than P file_path (min_file_age cfg) w then false
  else negb (existsb (path_match P file_path) (ignore_patterns cfg)).

(** [self.auth_manager.get_auth_config()] *)
Definition auth_config {O} : M P O environ :=
  fun s =>
    let (r, w) := get_auth_config P (world s) in
    (r, {| self := self s; world := w; log := log s |}).

(** [self.pending_changes.clear()] *)
Definition clear_pending : M P automation unit :=
  o <- get_self ;;
  set_self {| pending_changes := [];
              processing_changes := processing_changes o;
              last_commit_time := last_commit_time o |}.

(** [self.last_commit_time = time.time()] *)
Definition stamp_commit_time : M P automation unit :=
  fun s =>
    (Ok tt,
     {| self := {| pending_changes := pending_changes (self s);
                   processing_changes := processing_changes (self s);
                   last_commit_time := time_time P (world s) |};
        world := world s; log := log s |}).

Definition set_processing (b : bool) (o : automation) : automation :=
  {| pending_changes := pending_changes o;
     processing_changes := b;
     last_commit_time := last_commit_time o |}.

(** [set(change['type'] for change in changes)] decides between the one
    type present and ['mixed']. *)
Definition primary_change_type (changes : list change) : str :=
  match nodup (list_eq_dec N.eq_dec) (map type changes) with
  | [t] => t
  | _ => lit "mixed"
  end.

(** The [with self.change_lock] block of [process_changes]: [false] is its
    [return False]; on [true] the marker has been set. *)
Definition enter_flush : M P automation bool :=
  o <- get_self ;;
  if processing_changes o || negb (0 <? length (pending_changes o))%nat
  then ret false
  else set_self (set_processing true o) ;;; ret true.

(** The [try] block of [process_changes]. *)
Definition flush_body : M P automation bool :=
  '(git_status, error) <- get_git_status ;;
  if truthy (get error [])
  then print (StatusError (get error [])) ;;; ret false
  else
  match git_status with
  | None => raise (lit "'NoneType' object is not subscriptable")
  | Some git_status =>
      if negb (has_changes git_status) then clear_pending ;;; ret false
      else
        let primary_change_type := primary_change_type (changes git_status) in
        let files := map file (changes git_status) in
        commit_message <-
          generate_commit_message P (commit_generation cfg) primary_change_type files ;;
        print (Preparing commit_message) ;;;
        blocked <-
          (if conflict_handling_enabled cfg
           then
             '(success, message) <- check_for_conflicts P None ;;
             if negb success
             then print (ConflictCheckBlocked message) ;;; ret true
             else ret false
           else ret false) ;;
        if blocked : bool then ret false
        else
          auth <- auth_config ;;
          add_result <- run Git.add (with_env auth) ;;
          if negb (ok add_result)
          then print (AddFailed (stderr add_result)) ;;; ret false
          else
            commit_result <- run (Git.commit commit_message) (with_env auth) ;;
            if negb (ok commit_result)
            then print (CommitFailed (stderr commit_result)) ;;; ret false
            else
              print (Committed commit_message) ;;;
              (if auto_push cfg
               then
                 push_result <-
                   run (Git.push_to (current_branch git_status)) (with_env auth) ;;
                 if ok push_result then print Pushed
                 else print (PushFailed (stderr push_result))
               else ret tt) ;;;
              clear_pending ;;;
              stamp_commit_time ;;;
              ret true
  end.

(** The [try]/[except]/[finally] statement of [process_changes]. *)
Definition flush : M P automation bool :=
  try_finally
    (try_except flush_body
       (fun e => print (ProcessingException e) ;;; ret false))
    (fun s => {| self := set_processing false (self s);
                 world := world s; log := log s |}).

Definition process_changes : M P automation bool :=
  entered <- enter_flush ;;
  if entered : bool then flush else ret false.

(** [GitAutomationHandler.on_any_event]; the result is the timer it starts,
    if it starts one. *)
Definition on_any_event (ev : fs_event) : M P automation (option timer) :=
  if is_directory ev then ret None
  else
    let file_path := src_path ev in
    fun s =>
      if negb (should_process_file file_path (world s)) then (Ok None, s)
      else
        (print (FileChanged (fs_event_type ev) file_path) ;;;
         o <- get_self ;;
         set_self {| pending_changes :=
                       pending_changes o ++
                       [{| event_type := fs_event_type ev;
                           file_path := file_path;
                           timestamp := time_time P (world s) |}];
                     processing_changes := processing_changes o;
                     last_commit_time := last_commit_time o |} ;;;
         ret (Some {| interval := commit_delay cfg |})) s.

End Methods.

End Enhanced.

(** ** [AutoGitCommitHandler] *)

Module AutoCommit.

Record config := {
  watch_directory : str;
  commit_delay : Z;
  commit_message_template : str;
  exclude_patterns : list str;
  include_patterns : list str;
  enable_branch_check : bool;
  allowed_branches : list str;
  max_commit_message_length : Z
}.

(** The dictionary returned by [get_git_status]; [current_branch] is [None]
    when the branch command fails. *)
Record git_status := {
  changed_files : list str;
  current_branch : option str;
  has_changes : bool
}.

(** [x in xs] for a list of strings. *)
Definition str_in (x : str) (xs : list str) : bool := existsb (str_eqb x) xs.

(** The statement that shortens an over-long message. *)
Definition truncate_message (max_commit_message_length : Z) (commit_message : str)
  : str :=
  if len commit_message >? max_commit_message_length
  then slice_to commit_message max_commit_message_length ++ lit "..."
  else commit_message.

Section Methods.

Variable P : Platform.
Variable cfg : config.

Definition should_include_file (file_path : str) : bool :=
  if existsb (path_match P file_path) (exclude_patterns cfg) then false
  else
    match include_patterns cfg with
    | [] => true
    | _ :: _ => existsb (path_match P file_path) (include_patterns cfg)
    end.

Definition get_git_status {O} : M P O (option git_status * option str) :=
  try_except
    (result <- run Git.status (in_dir (watch_directory cfg)) ;;
     if negb (ok result)
     then ret (None, Some (Msg.git_command_failed ++ stderr result))
     else
       branch_result <- run Git.show_current (in_dir (watch_directory cfg)) ;;
       let current_branch :=
         if ok branch_result then Some (strip (stdout branch_result)) else None in
       ret (Some {| changed_files :=
                      map (fun line => slice_from line 3)
                          (filter truthy (split newline (strip (stdout result))));
                    current_branch := current_branch;
                    has_changes := 0 <? len (strip (stdout result)) |}, None))
    (fun e => ret (None, Some (Msg.status_failed ++ e))).

(** [template.format(...)], which raises on a template it cannot fill. *)
Definition format {O} (timestamp : str) (files_count : nat) (files : str)
  : M P O str :=
  fun s => (str_format P (commit_message_template cfg) timestamp files_count files, s).

(** The [try] block of [commit_changes]. *)
Definition commit_body {O} : M P O unit :=
  '(git_status, error) <- get_git_status ;;
  if truthy (get error [])
  then print (StatusError (get error []))
  else
  match git_status with
  | None => raise (lit "'NoneType' object is not subscriptable")
  | Some git_status =>
      if negb (has_changes git_status) then ret tt
      else if enable_branch_check cfg &&
              truthy (get (current_branch git_status) []) &&
              negb (str_in (get (current_branch git_status) []) (allowed_branches cfg))
      then print (BranchNotAllowed (get (current_branch git_status) []))
      else
        t <- now ;;
        let timestamp := strftime t in
        let files_count := length (changed_files git_status) in
        if (files_count =? 0)%nat then ret tt
        else
          commit_message <-
            format timestamp files_count
              (join (lit ", ") (firstn 3 (changed_files git_status)) ++
               (if (3 <? files_count)%nat then lit "..." else [])) ;;
          let commit_message :=
            truncate_message (max_commit_message_length cfg) commit_message in
          print (Committing files_count) ;;;
          add_result <- run Git.add (in_dir (watch_directory cfg)) ;;
          if negb (ok add_result) then print (AddFailed (stderr add_result))
          else
            commit_result <-
              run (Git.commit commit_message) (in_dir (watch_directory cfg)) ;;
            if negb (ok commit_result)
            then print (CommitFailed (stderr commit_result))
            else
              push_result <- run Git.push (in_dir (watch_directory cfg)) ;;
              if ok push_result then print (CommittedAndPushed commit_message)
              else print (CommittedPushFailed (stderr push_result))
  end.

(** [commit_changes], run to completion while it holds [commit_lock]. *)
Definition commit_changes {O} : M P O unit :=
  try_except commit_body (fun e => print (CommitException e)).

(** [on_any_event]; the result is the timer it starts, if it starts one. *)
Definition on_any_event {O} (ev : fs_event) : M P O (option timer) :=
  if is_directory ev then ret None
  else
    let file_path := src_path ev in
    if negb (should_include_file file_path) then ret None
    else
      print (FileChanged (fs_event_type ev) file_path) ;;;
      ret (Some {| interval := commit_delay cfg |}).

End Methods.

End AutoCommit.

(** ** Timer threads around [EnhancedGitAutomation]

    Every [threading.Timer] started by [on_any_event] is a thread that
    waits for its deadline and then calls [process_changes].  The handler
    appends to [pending_changes] and the flush tests and sets its marker
    while holding [change_lock], so these are single steps; between the
    marker being set and the [try] statement ending, other threads run. *)

Module Scheduler.

Import Enhanced.

Inductive thread :=
| Waiting (deadline : Z)
| Flushing
| Returned (result : outcome bool).

(** What can happen next: the watcher delivers an event, time passes, a
    timer whose deadline has passed calls [process_changes] and runs its
    locked block, a flush runs its [try] statement to the end, or something
    outside the program changes the world. *)
Inductive action (W : Type) :=
| Deliver (ev : fs_event)
| Advance (d : Z)
| Fire (i : nat)
| Finish (i : nat)
| Outside (w : W).
Arguments Deliver {W} ev.
Arguments Advance {W} d.
Arguments Fire {W} i.
Arguments Finish {W} i.
Arguments Outside {W} w.

Fixpoint set_nth {A} (i : nat) (x : A) (l : list A) : list A :=
  match l, i with
  | [], _ => []
  | _ :: l', O => x :: l'
  | y :: l', S i' => y :: set_nth i' x l'
  end.

Definition is_waiting (t : thread) : bool :=
  match t with Waiting _ => true | _ => false end.

Definition is_flushing (t : thread) : bool :=
  match t with Flushing => true | _ => false end.

Definition is_file_changed (ev : event) : bool :=
  match ev with Printed (FileChanged _ _) => true | _ => false end.

(** The events the handler accepted, each of which printed its line. *)
Definition accepted_events (l : list event) : nat :=
  length (filter is_file_changed l).

Section System.

Variable P : Platform.
Variable cfg : config.

Record system := {
  app : state P automation;
  clock : Z;
  threads : list thread
}.

(** The process after [__init__], before any event. *)
Definition boot (w : World P) : system :=
  {| app := {| self := {| pending_changes := [];
                          processing_changes := false;
                          last_commit_time := 0 |};
               world := w; log := [] |};
     clock := 0;
     threads := [] |}.

(** One step, or [None] when the step cannot be taken in this state. *)
Definition act (a : action (World P)) (sys : system) : option system :=
  match a with
  | Deliver ev =>
      match on_any_event P cfg ev (app sys) with
      | (Ok (Some tm), s') =>
          Some {| app := s'; clock := clock sys;
                  threads := threads sys ++ [Waiting (clock sys + interval tm)] |}
      | (_, s') =>
          Some {| app := s'; clock := clock sys; threads := threads sys |}
      end
  | Advance d =>
      if d <? 0 then None
      else Some {| app := app sys; clock := clock sys + d; threads := threads sys |}
  | Fire i =>
      match nth_error (threads sys) i with
      | Some (Waiting deadline) =>
          if clock sys <? deadline then None
          else
            match enter_flush P (app sys) with
            | (Ok true, s') =>
                Some {| app := s'; clock := clock sys;
                        threads := set_nth i Flushing (threads sys) |}
            | (r, s') =>
                Some {| app := s'; clock := clock sys;
                        threads := set_nth i (Returned r) (threads sys) |}
            end
      | _ => None
      end
  | Finish i =>
      match nth_error (threads sys) i with
      | Some Flushing =>
          let (r, s') := flush P cfg (app sys) in
          Some {| app := s'; clock := clock sys;
                  threads := set_nth i (Returned r) (threads sys) |}
      | _ => None
      end
  | Outside w =>
      Some {| app := {| self := self (app sys); world := w; log := log (app sys) |};
              clock := clock sys; threads := threads sys |}
  end.

Fixpoint exec (schedule : list (action (World P))) (sys : system) : option system :=
  match schedule with
  | [] => Some sys
  | a :: schedule' =>
      match act a sys with
      | Some sys' => exec schedule' sys'
      | None => None
      end
  end.

(** The states the process can be in. *)
Definition reachable (sys : system) : Prop :=
  exists w schedule, exec schedule (boot w) = Some sys.

(** Calls of [process_changes] made so far: one by each timer that went
    off. *)
Definition flush_attempts (sys : system) : nat :=
  length (filter (fun t => negb (is_waiting t)) (threads sys)).

(** Flushes between their locked block and the end of their [try]. *)
Definition flushes_executing (sys : system) : nat :=
  length (filter is_flushing (threads sys)).

Definition all_expired (sys : system) : bool :=
  forallb (fun t => negb (is_waiting t)) (threads sys).

End System.

Arguments app {P} s.
Arguments clock {P} s.
Arguments threads {P} s.

End Scheduler.

(** ** A scripted platform

    A world whose subprocesses answer from a fixed script, used to run the
    methods on concrete inputs.  Case mapping is the ASCII one and paths are
    POSIX paths. *)

Module Script.

Definition ascii_lower (s : str) : str :=
  map (fun c => if ((65 <=? c) && (c <=? 90))%N then (c + 32)%N else c) s.

Definition ascii_upper (s : str) : str :=
  map (fun c => if ((97 <=? c) && (c <=? 122))%N then (c - 32)%N else c) s.

(** The last component of a POSIX path that is neither empty nor a dot. *)
Definition posix_name (p : str) : str :=
  last (filter (fun c => truthy c && negb (str_eqb c (lit ".")))
               (split 47%N p)) [].

(** A pattern [*suffix] matches by suffix; any other pattern matches the
    name it spells. *)
Definition glob (path pattern : str) : bool :=
  match pattern with
  | 42%N :: suffix => endswith path suffix
  | _ => str_eqb (posix_name path) pattern
  end.

(** What the repository answers to each git command. *)
Record scenario := {
  branch_out : outcome CompletedProcess;
  status_out : str;
  unpushed_out : str;
  merge_tree_out : str;
  pull_out : outcome CompletedProcess;
  add_out : outcome CompletedProcess;
  commit_out : outcome CompletedProcess;
  push_out : outcome CompletedProcess
}.

Record oracle := {
  script : scenario;
  reading : datetime
}.

Definition exit0 (out : str) : outcome CompletedProcess :=
  Ok {| returncode := 0; stdout := out; stderr := [] |}.

Definition exit1 (out err : str) : outcome CompletedProcess :=
  Ok {| returncode := 1; stdout := out; stderr := err |}.

Definition respond (sc : scenario) (argv : list str) : outcome CompletedProcess :=
  let subcommand := nth 1 argv [] in
  if str_eqb subcommand (lit "branch") then branch_out sc
  else if str_eqb subcommand (lit "status") then exit0 (status_out sc)
  else if str_eqb subcommand (lit "log") then exit0 (unpushed_out sc)
  else if str_eqb subcommand (lit "merge-base") then exit0 (lit "abc123")
  else if str_eqb subcommand (lit "merge-tree") then exit0 (merge_tree_out sc)
  else if str_eqb subcommand (lit "pull") then pull_out sc
  else if str_eqb subcommand (lit "add") then add_out sc
  else if str_eqb subcommand (lit "commit") then commit_out sc
  else if str_eqb subcommand (lit "push") then push_out sc
  else exit0 [].

(** [str.format] for templates whose replacement fields are the three
    names the program passes, without conversions, format specifications or
    doubled braces.  [field] is the name read so far inside braces. *)
Fixpoint fill (timestamp files_count files : str) (field : option str)
    (template : str) : outcome str :=
  match template, field with
  | [], None => Ok []
  | [], Some _ => Raise (lit "expected '}' before end of string")
  | c :: rest, None =>
      if N.eqb c 123 then fill timestamp files_count files (Some []) rest
      else if N.eqb c 125
      then Raise (lit "Single '}' encountered in format string")
      else match fill timestamp files_count files None rest with
           | Ok filled => Ok (c :: filled)
           | Raise e => Raise e
           end
  | c :: rest, Some name =>
      if N.eqb c 125
      then
        let value :=
          if str_eqb name (lit "timestamp") then Some timestamp
          else if str_eqb name (lit "files_count") then Some files_count
          else if str_eqb name (lit "files") then Some files
          else None in
        match value, fill timestamp files_count files None rest with
        | Some v, Ok filled => Ok (v ++ filled)
        | Some _, Raise e => Raise e
        | None, _ => Raise (lit "'" ++ name ++ lit "'")
        end
      else fill timestamp files_count files (Some (name ++ [c])) rest
  end.

Definition platform : Platform :=
  {| World := oracle;
     subprocess_run := fun argv _ w => (respond (script w) argv, w);
     time_passes := fun _ w => w;
     datetime_now := reading;
     time_time := fun _ => 0;
     str_lower := ascii_lower;
     str_upper := ascii_upper;
     path_name := posix_name;
     path_match := glob;
     str_format := fun template timestamp files_count files =>
       fill timestamp (str_of_nat files_count) files None template;
     get_auth_config := fun w => (Ok [], w);
     file_younger_than := fun _ _ _ => false |}.

Definition noon : datetime :=
  {| year := 2024; month := 5; day := 17; hour := 12; minute := 0; second := 0 |}.


(** One modified file on [main], nothing unpushed, a clean merge, and every
    command succeeding. *)
Definition calm : scenario :=
  {| branch_out := exit0 (lit "main");
     status_out := lit " M a.py";
     unpushed_out := [];
     merge_tree_out := [];
     pull_out := exit0 [];
     add_out := exit0 [];
     commit_out := exit0 [];
     push_out := exit0 [] |}.

(** The same repository with a local commit that has not been pushed. *)
Definition ahead : scenario :=
  {| branch_out := exit0 (lit "main");
     status_out := lit " M a.py";
     unpushed_out := lit "1a2b3c4 local work";
     merge_tree_out := [];
     pull_out := exit0 [];
     add_out := exit0 [];
     commit_out := exit0 [];
     push_out := exit0 [] |}.

(** A conflict that no pull resolves: the check reports it every time and
    [git pull] and the merge commit fail every time. *)
Definition stuck : scenario :=
  {| branch_out := exit0 (lit "main");
     status_out := lit " M a.py";
     unpushed_out := [];
     merge_tree_out := lit "<<<<<<< ours";
     pull_out := exit1 (lit "CONFLICT (content): a.py") (lit "fix conflicts first");
     add_out := exit0 [];
     commit_out := exit1 [] (lit "unmerged files");
     push_out := exit0 [] |}.

(** A detached HEAD: the branch command prints nothing. *)
Definition detached : scenario :=
  {| branch_out := exit0 [];
     status_out := lit " M a.py";
     unpushed_out := [];
     merge_tree_out := [];
     pull_out := exit0 [];
     add_out := exit0 [];
     commit_out := exit0 [];
     push_out := exit0 [] |}.

(** The push is rejected after the commit went through. *)
Definition offline : scenario :=
  {| branch_out := exit0 (lit "main");
     status_out := lit " M a.py";
     unpushed_out := lit "1a2b3c4 local work";
     merge_tree_out := [];
     pull_out := exit0 [];
     add_out := exit0 [];
     commit_out := exit0 [];
     push_out := exit1 [] (lit "could not resolve host") |}.

Definition at_noon (sc : scenario) : oracle := {| script := sc; reading := noon |}.

(** A fresh state around a scripted world. *)
Definition start {O} (o : O) (w : oracle) : state platform O :=
  @Build_state platform O o w [].

Definition edit (path : string) : fs_event :=
  {| is_directory := false; src_path := lit path; fs_event_type := lit "modified" |}.

End Script.

(** ** Configurations and inputs used in the examples *)

Module Demo.

Import Script.

(** Timestamp off, the default cap of 100 characters. *)
Definition plain : generator_config :=
  {| include_timestamp := Some false; max_message_length := None |}.

(** The defaults of the generator: timestamp on, cap 100. *)
Definition defaults : generator_config :=
  {| include_timestamp := None; max_message_length := None |}.

(** A cap smaller than the ellipsis. *)
Definition tiny_cap : generator_config :=
  {| include_timestamp := Some false; max_message_length := Some 2 |}.

Definition retry3 : conflict_config :=
  {| max_retry_attempts := Some 3; retry_delay := Some 2 |}.

Definition enhanced (check_conflicts : bool) : Enhanced.config :=
  {| Enhanced.commit_generation := plain;
     Enhanced.conflict_handling := retry3;
     Enhanced.conflict_handling_enabled := check_conflicts;
     Enhanced.auto_push := true;
     Enhanced.commit_delay := 5;
     Enhanced.min_file_age := 1;
     Enhanced.ignore_patterns := [lit "*.pyc"] |}.

(** The default [commit_message_template]: four characters, a space,
    [{timestamp}], a dash between spaces, [{files_count}], a space and the
    measure word for files. *)
Definition default_template : str :=
  [0x81EA; 0x52A8; 0x63D0; 0x4EA4; 0x20]%N ++ lit "{timestamp} - {files_count}" ++
  files_word.

Definition auto (allowed : list str) : AutoCommit.config :=
  {| AutoCommit.watch_directory := lit ".";
     AutoCommit.commit_delay := 5;
     AutoCommit.commit_message_template := default_template;
     AutoCommit.exclude_patterns := [lit "*.pyc"];
     AutoCommit.include_patterns := [lit "*.py"];
     AutoCommit.enable_branch_check := true;
     AutoCommit.allowed_branches := allowed;
     AutoCommit.max_commit_message_length := 20 |}.

(** The automation object right after [__init__]. *)
Definition fresh : Enhanced.automation :=
  {| Enhanced.pending_changes := [];
     Enhanced.processing_changes := false;
     Enhanced.last_commit_time := 0 |}.

(** One recorded change waiting for a flush. *)
Definition one_pending : Enhanced.automation :=
  {| Enhanced.pending_changes :=
       [{| Enhanced.event_type := lit "modified";
           Enhanced.file_path := lit "a.py";
           Enhanced.timestamp := 0 |}];
     Enhanced.processing_changes := false;
     Enhanced.last_commit_time := 0 |}.

(** Two Python files and two Markdown files: a tie between code and docs. *)
Definition tied_files : list str :=
  [lit "b.md"; lit "a.py"; lit "c.md"; lit "d.py"].

End Demo.

(** ** [GitHubAuthManager] *)

Module Auth.

(** The attributes set by [__init__]. *)
Record manager := {
  auth_method : str;
  token_file : str;
  ssh_key_path : str
}.

(** What [get_auth_config] takes from the operating system. *)
Record OS := {
  Sys : Type;
  (** [os.path.exists(path)] *)
  path_exists : str -> Sys -> bool;
  (** [open(path, 'r')] and [f.read()] *)
  read_text : str -> Sys -> outcome str;
  (** [os.environ[name] = value] *)
  setenv : str -> str -> Sys -> Sys;
  (** [os.getenv(name)] *)
  getenv : str -> Sys -> option str;
  (** [subprocess.run(argv, check=True)]: the output goes where the output
      of the program goes, and an exit status other than zero raises *)
  run_checked : list str -> Sys -> outcome unit * Sys;
  (** [os.path.expanduser(path)] *)
  expanduser : str -> Sys -> str
}.

(** What a call does besides returning. *)
Inductive effect :=
| Exported (name value : str)
| Echoed (argv : list str) (result : outcome unit).

(** [d[k] = v] on a dictionary kept in insertion order. *)
Fixpoint dict_set (k v : str) (d : environ) : environ :=
  match d with
  | [] => [(k, v)]
  | (k', v') :: d' =>
      if str_eqb k' k then (k, v) :: d' else (k', v') :: dict_set k v d'
  end.

(** The two assignments made for a token. *)
Definition token_entries (auth_config : environ) : environ :=
  dict_set (lit "GIT_ASKPASS") (lit "echo")
    (dict_set (lit "GIT_TERMINAL_PROMPT") (lit "0") auth_config).

Definition ssh_command (ssh_key : str) : str :=
  lit "ssh -i " ++ ssh_key ++ lit " -o StrictHostKeyChecking=no".

(** [a or b] on the results of [os.getenv]. *)
Definition or_else (a b : option str) : option str :=
  match a with
  | Some t => if truthy t then a else b
  | None => b
  end.

Record result (os : OS) := {
  auth_config : environ;
  auth_success : bool;
  after : Sys os;
  effects : list effect
}.
Arguments auth_config {os} r.
Arguments auth_success {os} r.
Arguments after {os} r.
Arguments effects {os} r.

Section Methods.

Variable os : OS.
Variable self : manager.

(** The block under [if os.path.exists(self.token_file)], with its
    [try] and [except Exception: pass]. *)
Definition from_token_file (w : Sys os) : result os :=
  if path_exists os (token_file self) w
  then
    match read_text os (token_file self) w with
    | Raise _ =>
        {| auth_config := []; auth_success := false; after := w; effects := [] |}
    | Ok text =>
        let token := strip text in
        let auth_config := token_entries [] in
        let w1 := setenv os (lit "GIT_TERMINAL_PROMPT") (lit "0") w in
        let (echoed, w2) := run_checked os [lit "echo"; token] w1 in
        {| auth_config := auth_config;
           auth_success := match echoed with Ok _ => true | Raise _ => false end;
           after := w2;
           effects := [Exported (lit "GIT_TERMINAL_PROMPT") (lit "0");
                       Echoed [lit "echo"; token] echoed] |}
    end
  else {| auth_config := []; auth_success := false; after := w; effects := [] |}.

Definition get_auth_config (w : Sys os) : result os :=
  if str_eqb (auth_method self) (lit "token")
  then
    let r := from_token_file w in
    if negb (auth_success r)
    then
      let token :=
        or_else (getenv os (lit "GITHUB_TOKEN") (after r))
                (getenv os (lit "GIT_PASSWORD") (after r)) in
      if truthy (get token [])
      then {| auth_config := token_entries (auth_config r);
              auth_success := true;
              after := after r; effects := effects r |}
      else r
    else r
  else if str_eqb (auth_method self) (lit "ssh")
  then
    if path_exists os (ssh_key_path self) w
    then
      let ssh_key := expanduser os (ssh_key_path self) w in
      {| auth_config := [(lit "GIT_SSH_COMMAND", ssh_command ssh_key)];
         auth_success := true; after := w; effects := [] |}
    else {| auth_config := []; auth_success := false; after := w; effects := [] |}
  else {| auth_config := []; auth_success := false; after := w; effects := [] |}.

End Methods.

(** A machine for the examples: files with their text, environment
    variables, and whether [echo] can be run. *)
Record machine := {
  files : list (str * str);
  variables : list (str * str);
  echo_runs : bool
}.

Definition lookup (k : str) (d : list (str * str)) : option str :=
  match find (fun kv => str_eqb (fst kv) k) d with
  | Some kv => Some (snd kv)
  | None => None
  end.

Definition scripted : OS :=
  {| Sys := machine;
     path_exists := fun path w =>
       match lookup path (files w) with Some _ => true | None => false end;
     read_text := fun path w =>
       match lookup path (files w) with
       | Some text => Ok text
       | None => Raise (lit "[Errno 2] No such file or directory")
       end;
     setenv := fun name value w =>
       {| files := files w;
          variables := dict_set name value (variables w);
          echo_runs := echo_runs w |};
     getenv := fun name w => lookup name (variables w);
     run_checked := fun _ w =>
       (if echo_runs w then Ok tt
        else Raise (lit "[Errno 2] No such file or directory: 'echo'"), w);
     expanduser := fun path _ => path |}.

(** The default settings of the manager. *)
Definition by_token : manager :=
  {| auth_method := lit "token";
     token_file := lit ".github_token";
     ssh_key_path := lit "/home/dev/.ssh/id_rsa" |}.

(** A token file on a machine where [echo] cannot be run and no token is
    in the environment. *)
Definition no_echo : machine :=
  {| files := [(lit ".github_token", lit "s3cret" ++ [newline])];
     variables := [];
     echo_runs := false |}.

End Auth.

(** * Vocabulary of the properties *)

(** ** Categories *)

Definition all_categories : list category :=
  [Code; Config; Docs; Style; Test; Other].

(** The number of files that [_categorize_files] counts under [c]. *)
Definition files_in (P : Platform) (files : list str) (c : category) : nat :=
  length (filter (fun f => category_eqb (classify P f) c) files).

Definition dict_of (n : category -> nat) : category_dict :=
  map (fun c => (c, n c)) all_categories.

(** Strictly increasing position in the insertion order. *)
Fixpoint increasing {A} (idx : A -> nat) (l : list A) : Prop :=
  match l with
  | [] => True
  | x :: l' => (forall y, In y l' -> (idx x < idx y)%nat) /\ increasing idx l'
  end.

(** ** What a log shows *)

(** The commit message that [commit_changes] hands to [git commit]. *)
Definition committed_messages (l : list event) : list str :=
  flat_map (fun ev =>
              match ev with
              | Ran (_ :: sub :: _ :: message :: []) _ _ =>
                  if str_eqb sub (lit "commit") then [message] else []
              | _ => []
              end) l.

(** The git subcommand of an argument vector. *)
Definition subcommand (argv : list str) : str := nth 1 argv [].

(** A subprocess as the programs judge it: exit status zero, another exit
    status, or no exit status because [subprocess.run] raised. *)
Inductive verdict := Succeeded | Failed | Crashed.

Definition verdict_of (r : outcome CompletedProcess) : verdict :=
  match r with
  | Ok p => if ok p then Succeeded else Failed
  | Raise _ => Crashed
  end.

(** The rounds of [handle_conflicts] as the log shows them: a conflict
    check starts with its [git fetch], a resolution attempt is a
    [git pull], and a wait is a sleep. *)
Inductive mark := Check | Pull | Wait (seconds : Z).

Definition mark_of (ev : event) : list mark :=
  match ev with
  | Ran argv _ _ =>
      if str_eqb (subcommand argv) (lit "fetch") then [Check]
      else if str_eqb (subcommand argv) (lit "pull") then [Pull]
      else []
  | Slept d => [Wait d]
  | Printed _ => []
  end.

Definition marks (l : list event) : list mark := flat_map mark_of l.

(** [n] rounds with a wait of [d] between one and the next. *)
Fixpoint spaced_rounds (n : nat) (d : Z) : list mark :=
  match n with
  | O => []
  | S O => [Check; Pull]
  | S n' => Check :: Pull :: Wait d :: spaced_rounds n' d
  end.



(** The steps of the commit pipeline. *)
Inductive git_step := Add | Commit | Push.

Definition pipeline_step (ev : event) : list (git_step * verdict) :=
  match ev with
  | Ran argv _ r =>
      if str_eqb (subcommand argv) (lit "add") then [(Add, verdict_of r)]
      else if str_eqb (subcommand argv) (lit "commit") then [(Commit, verdict_of r)]
      else if str_eqb (subcommand argv) (lit "push") then [(Push, verdict_of r)]
      else []
  | _ => []
  end.

(** The pipeline steps a log shows, in the order they ran, each with the
    way it ended. *)
Definition pipeline (l : list event) : list (git_step * verdict) :=
  flat_map pipeline_step l.

(** A pipeline that stops at the first step that does not succeed. *)
Inductive stops_at_first_failure : list (git_step * verdict) -> Prop :=
| nothing_staged : stops_at_first_failure []
| add_not_done v :
    v <> Succeeded -> stops_at_first_failure [(Add, v)]
| commit_not_done v :
    v <> Succeeded ->
    stops_at_first_failure [(Add, Succeeded); (Commit, v)]
| committed_locally :
    stops_at_first_failure [(Add, Succeeded); (Commit, Succeeded)]
| commit_then_push v :
    stops_at_first_failure [(Add, Succeeded); (Commit, Succeeded); (Push, v)].

(** Commands that take a commit or staged changes back. *)
Definition undoing_commands : list str :=
  map lit ["reset"; "revert"; "restore"; "checkout"; "stash"; "rebase"; "rm"]%string.

Definition undoes (ev : event) : bool :=
  match ev with
  | Ran argv _ _ => existsb (str_eqb (subcommand argv)) undoing_commands
  | _ => false
  end.

(** A stretch of log without a pipeline step, without an undoing command
    and without an accepted file event. *)
Definition quiet (l : list event) : Prop :=
  pipeline l = [] /\ existsb undoes l = false /\
  Scheduler.accepted_events l = 0%nat.

Definition is_commit_report (ev : event) : bool :=
  match ev with
  | Printed (CommittedPushFailed _) | Printed (CommittedAndPushed _) => true
  | _ => false
  end.



(** ** Recorded changes *)

(** The handler called on a series of events, one after the other, with no
    flush in between. *)
Fixpoint record_all (P : Platform) (cfg : Enhanced.config)
    (evs : list fs_event) (s : state P Enhanced.automation)
  : state P Enhanced.automation :=
  match evs with
  | [] => s
  | ev :: evs' => record_all P cfg evs' (snd (Enhanced.on_any_event P cfg ev s))
  end.

(** The events that pass the two tests at the top of the handler. *)
Definition accepts (P : Platform) (cfg : Enhanced.config) (w : World P)
    (ev : fs_event) : bool :=
  negb (is_directory ev) && Enhanced.should_process_file P cfg (src_path ev) w.

(** The item the handler appends for an event. *)
Definition recorded (P : Platform) (w : World P) (ev : fs_event)
  : Enhanced.pending_change :=
  {| Enhanced.event_type := fs_event_type ev;
     Enhanced.file_path := src_path ev;
     Enhanced.timestamp := time_time P w |}.

(** ** Schedules *)

(** Runs of [git status] in a log: the flushes that got as far as asking
    the repository. *)
Definition status_queries (l : list event) : nat :=
  length (filter (fun ev =>
                    match ev with
                    | Ran argv _ _ => str_eqb (subcommand argv) (lit "status")
                    | _ => false
                    end) l).

(** Three saves of one file one second apart, then a quiet period longer
    than the delay of five seconds in which the three timers go off. *)
Definition burst : list (Scheduler.action Script.oracle) :=
  [Scheduler.Deliver (Script.edit "a.py"); Scheduler.Advance 1;
   Scheduler.Deliver (Script.edit "a.py"); Scheduler.Advance 1;
   Scheduler.Deliver (Script.edit "a.py"); Scheduler.Advance 5;
   Scheduler.Fire 0; Scheduler.Finish 0;
   Scheduler.Fire 1; Scheduler.Finish 1;
   Scheduler.Fire 2; Scheduler.Finish 2].

(** A second timer goes off while the first flush is still running. *)
Definition overlap : list (Scheduler.action Script.oracle) :=
  [Scheduler.Deliver (Script.edit "a.py"); Scheduler.Advance 1;
   Scheduler.Deliver (Script.edit "a.py"); Scheduler.Advance 5;
   Scheduler.Fire 0; Scheduler.Fire 1].

(** As many timers as accepted events. *)
Definition one_timer_per_event (P : Platform) (sys : Scheduler.system P)
  : Prop :=
  length (Scheduler.threads sys)
  = Scheduler.accepted_events (log (Scheduler.app sys)).

(** The marker is set exactly while one flush is executing. *)
Definition marker_counts_flushes (P : Platform) (sys : Scheduler.system P)
  : Prop :=
  Scheduler.flushes_executing P sys
  = if Enhanced.processing_changes (self (Scheduler.app sys)) then 1%nat else 0%nat.


(** ** A platform on which every command gets the same answer *)

Definition always (answer : outcome CompletedProcess) : Platform :=
  {| World := unit;
     subprocess_run := fun _ _ w => (answer, w);
     time_passes := fun _ w => w;
     datetime_now := fun _ => Script.noon;
     time_time := fun _ => 0;
     str_lower := Script.ascii_lower;
     str_upper := Script.ascii_upper;
     path_name := Script.posix_name;
     path_match := Script.glob;
     str_format := fun template timestamp files_count files =>
       Script.fill timestamp (str_of_nat files_count) files None template;
     get_auth_config := fun w => (Ok [], w);
     file_younger_than := fun _ _ _ => false |}.

(** Every git command fails as it does outside a repository. *)
Definition no_repository : Platform :=
  always (Script.exit1 [] (lit "fatal: not a git repository")).

(** The git executable is missing: [subprocess.run] raises. *)
Definition no_git : Platform :=
  always (Raise (lit "[Errno 2] No such file or directory: 'git'")).

(** A fresh state on such a platform. *)
Definition begin (answer : outcome CompletedProcess) {O} (o : O)
  : state (always answer) O :=
  @Build_state (always answer) O o tt [].

(** ** Conflict checks *)

(** The argument vectors of the commands a log shows, in the order they
    ran. *)
Definition commands (l : list event) : list (list str) :=
  flat_map (fun ev => match ev with Ran argv _ _ => [argv] | _ => [] end) l.

(** The commands of one conflict check against [branch], where [ancestor]
    is what [git merge-base] printed. *)
Definition inspection (branch ancestor : str) : list (list str) :=
  [Git.fetch; Git.show_current; Git.unpushed; Git.merge_base branch;
   Git.merge_tree ancestor branch].

(** A command run without [cwd] and without [env]. *)
Definition plain_run (ev : event) : bool :=
  match ev with
  | Ran _ {| cwd := None; env := None |} _ => true
  | _ => false
  end.

(** An answer that shows what [check_for_conflicts] calls a conflict: a
    [git log] of the commits not yet pushed that lists something, or a
    [git merge-tree] whose output carries a conflict marker, each with exit
    status zero. *)
Definition reports_conflict (ev : event) : bool :=
  match ev with
  | Ran argv _ (Ok r) =>
      ok r &&
      ((str_eqb (subcommand argv) (lit "log") && truthy (strip (stdout r))) ||
       (str_eqb (subcommand argv) (lit "merge-tree") &&
        (contains (stdout r) (lit "=======") ||
         contains (stdout r) (lit "<<<<<<<"))))
  | _ => false
  end.

Definition is_check (m : mark) : bool :=
  match m with Check => true | _ => false end.

(** [k] rounds that each ended in a wait of [d]. *)
Definition failed_rounds (k : nat) (d : Z) : list mark :=
  concat (repeat [Check; Pull; Wait d] k).

(** The reasons [handle_conflicts] gives with a success. *)
Definition success_reasons : list str :=
  [Msg.ready_to_commit; Msg.merged; Msg.auto_resolved].

(** The reasons it gives when the last round has failed. *)
Definition failure_reason (reason : str) : Prop :=
  exists detail,
    reason = Msg.resolve_manually ++ detail \/
    reason = Msg.handling_exception ++ detail.

(** Two retries with a negative wait between them. *)
Definition negative_delay : conflict_config :=
  {| max_retry_attempts := Some 2; retry_delay := Some (-1) |}.

(** No retry at all. *)
Definition no_retries : conflict_config :=
  {| max_retry_attempts := Some 0; retry_delay := None |}.

(** ** Kinds of change *)

(** The change types [get_git_status] gives to a status line. *)
Definition line_types : list str :=
  map lit ["added"; "deleted"; "renamed"; "copied"; "modified"]%string.

(** * Properties *)

(** ** The dominant category *)

Lemma category_eqb_eq a b : category_eqb a b = true <-> a = b.
Proof. destruct a, b; simpl; split; intros H; try reflexivity; discriminate. Qed.

Lemma category_eqb_refl a : category_eqb a a = true.
Proof. destruct a; reflexivity. Qed.

Lemma increment_dict_of k n :
  increment k (dict_of n) =
  dict_of (fun c => if category_eqb c k then S (n c) else n c).
Proof. destruct k; reflexivity. Qed.

Lemma dict_of_ext n m : (forall c, n c = m c) -> dict_of n = dict_of m.
Proof.
  intros H. unfold dict_of. apply map_ext. intros c. now rewrite H.
Qed.

Lemma fold_increment P files : forall n,
  fold_left (fun categories f => increment (classify P f) categories)
            files (dict_of n)
  = dict_of (fun c => (n c + files_in P files c)%nat).
Proof.
  induction files as [|f files IH]; intros n; cbn [fold_left].
  - apply dict_of_ext. intros c. unfold files_in. simpl. lia.
  - rewrite increment_dict_of, IH. apply dict_of_ext. intros c.
    unfold files_in. cbn [filter].
    destruct (category_eqb (classify P f) c) eqn:E.
    + apply category_eqb_eq in E. subst c. rewrite category_eqb_refl. simpl. lia.
    + destruct (category_eqb c (classify P f)) eqn:E'.
      * apply category_eqb_eq in E'. subst c.
        rewrite category_eqb_refl in E. discriminate.
      * lia.
Qed.

Lemma count_files_dict P files :
  count_files P files = dict_of (files_in P files).
Proof.
  unfold count_files.
  change initial_categories with (dict_of (fun _ => 0%nat)).
  rewrite fold_increment. now apply dict_of_ext.
Qed.

Lemma keys_of_positive n (l : list category) :
  map fst (filter (fun kv => (0 <? snd kv)%nat) (map (fun c => (c, n c)) l))
  = filter (fun c => (0 <? n c)%nat) l.
Proof.
  induction l as [|x l IH]; simpl; [reflexivity|].
  destruct (0 <? n x)%nat; simpl; now rewrite IH.
Qed.

Lemma item_of_positive n c (l : list category) :
  item (filter (fun kv => (0 <? snd kv)%nat) (map (fun c => (c, n c)) l)) c
  = if existsb (category_eqb c) l then n c else 0%nat.
Proof.
  induction l as [|x l IH]; simpl; [reflexivity|].
  destruct (0 <? n x)%nat eqn:Hx; simpl.
  - destruct (category_eqb x c) eqn:E.
    + apply category_eqb_eq in E. subst x. now rewrite category_eqb_refl.
    + replace (category_eqb c x) with false; [exact IH|].
      destruct c, x; simpl in *; congruence.
  - rewrite IH. destruct (category_eqb c x) eqn:E; simpl; [|reflexivity].
    apply category_eqb_eq in E. subst x.
    apply Nat.ltb_ge in Hx. assert (n c = 0%nat) as -> by lia.
    now destruct (existsb (category_eqb c) l).
Qed.

Lemma item_categorized P files c :
  item (_categorize_files P files) c = files_in P files c.
Proof.
  unfold _categorize_files. rewrite count_files_dict. unfold dict_of.
  rewrite item_of_positive. now destruct c.
Qed.

Lemma increasing_filter {A} (idx : A -> nat) (p : A -> bool) l :
  increasing idx l -> increasing idx (filter p l).
Proof.
  induction l as [|x l IH]; simpl; [trivial|].
  intros [Hx Hl]. destruct (p x); simpl; [split|]; auto.
  intros y Hy. apply filter_In in Hy. now apply Hx.
Qed.

Lemma max_by_in {A} (key : A -> nat) rest : forall best,
  In (max_by key best rest) (best :: rest).
Proof.
  induction rest as [|x rest IH]; intros best; simpl; [now left|].
  destruct (key best <? key x)%nat.
  - right. apply IH.
  - destruct (IH best) as [H|H]; [now left | now right; right].
Qed.

(** [max] keeps the first of the largest: whatever the candidate already
    beats, and everything still to come, is beaten by the result, and on
    equal keys the result comes first. *)
Lemma max_by_dominates {A} (key idx : A -> nat) rest : forall best,
  (forall x, In x rest -> (idx best < idx x)%nat) ->
  increasing idx rest ->
  forall y,
    In y rest \/
    ((key y <= key best)%nat /\ (key y = key best -> (idx best <= idx y)%nat)) ->
    (key y <= key (max_by key best rest))%nat /\
    (key y = key (max_by key best rest) ->
     (idx (max_by key best rest) <= idx y)%nat).
Proof.
  induction rest as [|x rest IH]; intros best Hbest Hinc y Hy; simpl.
  - destruct Hy as [[]|Hy]; exact Hy.
  - destruct Hinc as [Hx Hinc].
    destruct (key best <? key x)%nat eqn:E.
    + apply Nat.ltb_lt in E. apply IH; auto.
      destruct Hy as [[->|Hy]|[H1 H2]]; [right; lia | now left | right; lia].
    + apply Nat.ltb_ge in E. apply IH; auto.
      * intros z Hz. apply Hbest. now right.
      * destruct Hy as [[->|Hy]|Hy]; [right | now left | now right].
        split; [exact E|]. intros _.
        specialize (Hbest y (or_introl eq_refl)). lia.
Qed.

Lemma all_categories_increasing : increasing category_index all_categories.
Proof.
  simpl. repeat split; intros y Hy; simpl in Hy;
    repeat (destruct Hy as [<-|Hy]; [simpl; lia|]); destruct Hy.
Qed.

(** C8. For every non-empty list of files, the label that the generator
    puts after the file count is the one of the category with the most
    files; among categories with equally many files it is the first in the
    order code, config, docs, style, test, other. *)
Theorem dominant_category_label (P : Platform) (files : list str) :
  files <> [] ->
  exists c,
    main_category (_categorize_files P files) = Some c /\
    category_desc P files = lit " [" ++ category_names c ++ lit "]" /\
    (forall c', (files_in P files c' <= files_in P files c)%nat) /\
    (forall c', files_in P files c' = files_in P files c ->
                (category_index c <= category_index c')%nat) /\
    (forall cfg timestamp change_type, exists rest,
       assembled_message P cfg timestamp change_type files =
       dict_get type_prefixes change_type default_prefix ++
       file_desc files ++ lit " [" ++ category_names c ++ lit "]" ++ rest).
Proof.
  intros Hne.
  assert (Hkeys : map fst (_categorize_files P files)
                  = filter (fun c => (0 <? files_in P files c)%nat) all_categories).
  { unfold _categorize_files. rewrite count_files_dict. apply keys_of_positive. }
  assert (Hsome : exists k ks, map fst (_categorize_files P files) = k :: ks).
  { destruct files as [|f files]; [contradiction|].
    rewrite Hkeys.
    assert (Hin : In (classify P f)
                     (filter (fun c => (0 <? files_in P (f :: files) c)%nat)
                             all_categories)).
    { apply filter_In. split; [destruct (classify P f); simpl; tauto|].
      apply Nat.ltb_lt. unfold files_in. simpl.
      rewrite category_eqb_refl. simpl. lia. }
    destruct (filter _ all_categories) as [|k ks]; [destruct Hin|]. eauto. }
  destruct Hsome as (k & ks & Hk).
  set (key := item (_categorize_files P files)).
  set (c := max_by key k ks).
  assert (Hmain : main_category (_categorize_files P files) = Some c).
  { unfold main_category. now rewrite Hk. }
  assert (Hinc : increasing category_index (k :: ks)).
  { rewrite <- Hk, Hkeys. apply increasing_filter, all_categories_increasing. }
  assert (Hc_in : In c (k :: ks)) by apply max_by_in.
  assert (Hc_pos : (0 < files_in P files c)%nat).
  { rewrite <- Hk, Hkeys in Hc_in. apply filter_In in Hc_in.
    now apply Nat.ltb_lt. }
  assert (Hdom : forall c',
            (key c' <= key c)%nat /\
            (key c' = key c -> (category_index c <= category_index c')%nat)).
  { intros c'. destruct (Nat.eq_dec (files_in P files c') 0) as [Hz|Hnz].
    - unfold key. rewrite !item_categorized. lia.
    - assert (Hin : In c' (k :: ks)).
      { rewrite <- Hk, Hkeys. apply filter_In.
        split; [destruct c'; simpl; tauto | apply Nat.ltb_lt; lia]. }
      destruct Hinc as [Hk_lt Hinc].
      apply (max_by_dominates key category_index ks k Hk_lt Hinc).
      destruct Hin as [<-|Hin]; [right; lia | now left]. }
  exists c. split; [exact Hmain|].
  split; [unfold category_desc; now rewrite Hmain|].
  split; [|split].
  - intros c'. destruct (Hdom c') as [H _]. unfold key in H.
    now rewrite !item_categorized in H.
  - intros c' Heq. destruct (Hdom c') as [_ H]. apply H.
    unfold key. now rewrite !item_categorized.
  - intros cfg timestamp change_type.
    unfold assembled_message, category_desc. rewrite Hmain.
    rewrite concat_app. cbn [concat]. rewrite <- !app_assoc.
    eexists. reflexivity.
Qed.

(** The tie between two code files and two documents goes to code. *)
Lemma dominant_category_label_witness :
  Demo.tied_files <> [] /\
  exists c,
    main_category (_categorize_files Script.platform Demo.tied_files) = Some c /\
    category_desc Script.platform Demo.tied_files
      = lit " [" ++ category_names c ++ lit "]" /\
    (forall c', (files_in Script.platform Demo.tied_files c'
                 <= files_in Script.platform Demo.tied_files c)%nat) /\
    (forall c', files_in Script.platform Demo.tied_files c'
                = files_in Script.platform Demo.tied_files c ->
                (category_index c <= category_index c')%nat) /\
    (forall cfg timestamp change_type, exists rest,
       assembled_message Script.platform cfg timestamp change_type Demo.tied_files =
       dict_get type_prefixes change_type default_prefix ++
       file_desc Demo.tied_files ++ lit " [" ++ category_names c ++ lit "]" ++ rest).
Proof.
  split; [discriminate|].
  apply (dominant_category_label Script.platform Demo.tied_files). discriminate.
Defined.

Example tie_goes_to_code :
  main_category (_categorize_files Script.platform Demo.tied_files) = Some Code.
Proof. reflexivity. Qed.

(** ** The length limit *)

Lemma len_app (a b : str) : len (a ++ b) = len a + len b.
Proof. unfold len. rewrite length_app. lia. Qed.

Lemma len_firstn (n : nat) (s : str) : len (firstn n s) = Z.min (Z.of_nat n) (len s).
Proof. unfold len. rewrite length_firstn. lia. Qed.

(** A message within the cap is returned as it is. *)
Lemma limit_length_within max_length msg :
  len msg <= max_length -> limit_length max_length msg = msg.
Proof.
  intros H. unfold limit_length.
  destruct (len msg >? max_length) eqn:E; [|reflexivity].
  apply Z.gtb_lt in E. lia.
Qed.

(** A longer one is cut once: its first [max_length - 3] characters and the
    three dots. *)
Lemma limit_length_beyond max_length msg :
  3 <= max_length < len msg ->
  limit_length max_length msg
  = firstn (Z.to_nat (max_length - 3)) msg ++ lit "..."
  /\ len (limit_length max_length msg) = max_length.
Proof.
  intros H. unfold limit_length, slice_to.
  destruct (len msg >? max_length) eqn:E.
  - destruct (max_length - 3 <? 0) eqn:E'; [apply Z.ltb_lt in E'; lia|].
    split; [reflexivity|]. rewrite len_app, len_firstn.
    change (len (lit "...")) with 3. lia.
  - rewrite Z.gtb_ltb in E. apply Z.ltb_ge in E. lia.
Qed.

(** From a cap of three characters on, the generator keeps to the cap. *)
Lemma limit_length_bound max_length msg :
  3 <= max_length -> len (limit_length max_length msg) <= max_length.
Proof.
  intros H. destruct (Z_le_gt_dec (len msg) max_length) as [Hle|Hgt].
  - now rewrite limit_length_within.
  - destruct (limit_length_beyond max_length msg) as [_ ->]; lia.
Qed.

(** Below three, the bound of the slice is negative and counts from the end
    of the message: only [3 - max_length] characters are dropped. *)
Lemma limit_length_small_cap max_length msg :
  0 <= max_length < 3 -> 3 <= len msg ->
  len (limit_length max_length msg) = len msg + max_length.
Proof.
  intros H Hm. unfold limit_length, slice_to.
  destruct (len msg >? max_length) eqn:E.
  - destruct (max_length - 3 <? 0) eqn:E'; [|apply Z.ltb_ge in E'; lia].
    rewrite len_app, len_firstn. change (len (lit "...")) with 3. lia.
  - rewrite Z.gtb_ltb in E. apply Z.ltb_ge in E. lia.
Qed.


(** C2. The cap on the message length is broken in two places.  With
    [max_message_length = 2] the generator turns a message of 20 characters
    into one of 22; with [max_commit_message_length = 20] and the
    default template the message that [commit_changes] commits has 23
    characters. *)
Theorem message_longer_than_cap :
  (exists msg,
     fst (generate_commit_message Script.platform Demo.tiny_cap
            (lit "modified") [lit "a.py"]
            (Script.start tt (Script.at_noon Script.calm))) = Ok msg /\
     len (assembled_message Script.platform Demo.tiny_cap
            (strftime Script.noon) (lit "modified") [lit "a.py"]) = 20 /\
     len msg = 22 /\
     get (max_message_length Demo.tiny_cap) 100 = 2) /\
  (exists msg,
     committed_messages
       (log (snd (AutoCommit.commit_changes Script.platform
                    (Demo.auto [lit "main"])
                    (Script.start tt (Script.at_noon Script.calm))))) = [msg] /\
     len msg = 23 /\
     AutoCommit.max_commit_message_length (Demo.auto [lit "main"]) = 20).
Proof.
  split; eexists; repeat split; vm_compute; reflexivity.
Qed.

(** ** Determinism of the generator *)




(** ** Conflict checks *)


Lemma marks_app l1 l2 : marks (l1 ++ l2) = marks l1 ++ marks l2.
Proof. unfold marks. apply flat_map_app. Qed.

(** Unfolds the monad down to the calls of [subprocess_run]. *)
Ltac unfold_monad :=
  unfold bind, ret, raise, try_except, try_finally, print, run, sleep, now,
         get_self, set_self, emit in *;
  cbn [self world log fst snd] in *.

(** Reduces the projections and tests that a step has decided. *)
Ltac tidy := cbn [self world log fst snd negb andb orb] in *.

(** C3. Whenever the fetch succeeds and [git log origin/HEAD..HEAD] lists
    commits, [check_for_conflicts] returns [True] as its first component,
    the one that stands for a conflict, and a reason that names the current
    branch and says it has commits that are not pushed. *)
Theorem unpushed_commits_flagged (P : Platform) (O : Type)
    (target_branch : option str) (s : state P O)
    (fetched branch unpushed : CompletedProcess) (w1 w2 w3 : World P) :
  subprocess_run P Git.fetch no_opts (world s) = (Ok fetched, w1) ->
  ok fetched = true ->
  subprocess_run P Git.show_current no_opts w1 = (Ok branch, w2) ->
  subprocess_run P Git.unpushed no_opts w2 = (Ok unpushed, w3) ->
  ok unpushed = true ->
  truthy (strip (stdout unpushed)) = true ->
  fst (check_for_conflicts P target_branch s)
  = Ok (true, Msg.local_branch ++ strip (stdout branch) ++ Msg.has_unpushed).
Proof.
  intros Hf Hfok Hb Hu Huok Hout.
  unfold check_for_conflicts. unfold_monad.
  rewrite Hf. rewrite Hfok. tidy.
  rewrite Hb. tidy.
  rewrite Hu. tidy.
  rewrite Huok, Hout. reflexivity.
Qed.

Lemma unpushed_commits_flagged_witness :
  fst (check_for_conflicts Script.platform None
         (Script.start tt (Script.at_noon Script.ahead)))
  = Ok (true, Msg.local_branch ++ lit "main" ++ Msg.has_unpushed).
Proof.
  apply (unpushed_commits_flagged Script.platform unit None
           (Script.start tt (Script.at_noon Script.ahead))
           {| returncode := 0; stdout := []; stderr := [] |}
           {| returncode := 0; stdout := lit "main"; stderr := [] |}
           {| returncode := 0; stdout := lit "1a2b3c4 local work"; stderr := [] |}
           (Script.at_noon Script.ahead) (Script.at_noon Script.ahead)
           (Script.at_noon Script.ahead));
    reflexivity.
Defined.

(** With one local commit not yet pushed the verdict is not
    [hasConflict = false]. *)
Lemma unpushed_commits_not_cleared :
  fst (check_for_conflicts Script.platform (O:=unit) None
         (Script.start tt (Script.at_noon Script.ahead)))
  = Ok (true, Msg.local_branch ++ lit "main" ++ Msg.has_unpushed) /\
  ~ (exists reason,
       fst (check_for_conflicts Script.platform (O:=unit) None
              (Script.start tt (Script.at_noon Script.ahead)))
       = Ok (false, reason)).
Proof.
  split; [vm_compute; reflexivity|].
  intros [reason H]. vm_compute in H. discriminate.
Qed.

(** [process_changes] reads the same component as success: with the check
    switched on it commits when commits are unpushed and stops when the
    check finds nothing. *)
Example flush_commits_when_ahead :
  fst (Enhanced.process_changes Script.platform (Demo.enhanced true)
         (Script.start Demo.one_pending (Script.at_noon Script.ahead)))
  = Ok true /\
  fst (Enhanced.process_changes Script.platform (Demo.enhanced true)
         (Script.start Demo.one_pending (Script.at_noon Script.calm)))
  = Ok false.
Proof. split; vm_compute; reflexivity. Qed.

(** ** The retry loop *)

Section PermanentConflict.

Variable P : Platform.
Variable cfg : conflict_config.
Variable O : Type.

(** The worlds in which the conflict stays: every check reports it, every
    pull exits with an error, and so does every merge commit. *)
Variable Stuck : World P -> Prop.

Hypothesis stuck_after_run : forall argv opts w,
  Stuck w -> Stuck (snd (subprocess_run P argv opts w)).
Hypothesis stuck_after_sleep : forall d w,
  Stuck w -> Stuck (time_passes P d w).
Hypothesis check_reports : forall s : state P O,
  Stuck (world s) ->
  exists reason, fst (check_for_conflicts P None s) = Ok (true, reason).
Hypothesis pull_fails : forall w,
  Stuck w ->
  exists p, fst (subprocess_run P Git.pull no_opts w) = Ok p /\ ok p = false.
Hypothesis add_returns : forall w,
  Stuck w -> exists p, fst (subprocess_run P Git.add no_opts w) = Ok p.
Hypothesis merge_commit_fails : forall w,
  Stuck w ->
  exists p, fst (subprocess_run P Git.merge_commit no_opts w) = Ok p /\
            ok p = false.

Let delay := get (retry_delay cfg) 2.






(** An argument other than [None] and [0] is the number of rounds. *)
Lemma effective_retries_given (n : Z) :
  n <> 0 -> effective_retries cfg (Some n) = n.
Proof.
  intros H. unfold effective_retries.
  destruct (Z.eqb_spec n 0); [contradiction|reflexivity].
Qed.


End PermanentConflict.


Example three_rounds_two_waits :
  marks (log (snd (handle_conflicts Script.platform Demo.retry3 (Some 3)
                     (Script.start tt (Script.at_noon Script.stuck)))))
  = [Check; Pull; Wait 2; Check; Pull; Wait 2; Check; Pull].
Proof. vm_compute. reflexivity. Qed.

(** ** The commit pipeline *)

Lemma pipeline_app l1 l2 : pipeline (l1 ++ l2) = pipeline l1 ++ pipeline l2.
Proof. unfold pipeline. apply flat_map_app. Qed.

Lemma accepted_events_app l1 l2 :
  Scheduler.accepted_events (l1 ++ l2)
  = (Scheduler.accepted_events l1 + Scheduler.accepted_events l2)%nat.
Proof.
  unfold Scheduler.accepted_events. now rewrite filter_app, length_app.
Qed.

(** Runs every subprocess on the way and decides every test. *)
Ltac walk P :=
  repeat
    (match goal with
     | |- context [subprocess_run P ?a ?o ?w] =>
         let r := fresh "r" in
         let w' := fresh "w" in
         destruct (subprocess_run P a o w) as [r w']; destruct r as [?p|?e];
         tidy
     | |- context [ok ?p] => destruct (ok p) eqn:?; tidy
     | |- context [if ?b then _ else _] => destruct b eqn:?; tidy
     end).

(** The last steps of a walk: name the new part of the log and compute
    what it shows. *)
Ltac show_quiet :=
  split; [reflexivity|];
  split; [eexists; reflexivity|];
  rewrite <- ?app_assoc; eexists; split; [reflexivity|];
  repeat split; reflexivity.

(** [check_for_conflicts] returns, leaves [self] alone, and runs neither a
    pipeline step nor an undoing command. *)
Lemma check_is_quiet (P : Platform) (O : Type) (target : option str)
    (s : state P O) :
  self (snd (check_for_conflicts P target s)) = self s /\
  (exists v, fst (check_for_conflicts P target s) = Ok v) /\
  exists l, log (snd (check_for_conflicts P target s)) = log s ++ l /\ quiet l.
Proof.
  unfold check_for_conflicts. unfold_monad. walk P; show_quiet.
Qed.

Lemma enhanced_status_is_quiet (P : Platform) (O : Type) (s : state P O) :
  self (snd (Enhanced.get_git_status P s)) = self s /\
  (exists v, fst (Enhanced.get_git_status P s) = Ok v) /\
  exists l, log (snd (Enhanced.get_git_status P s)) = log s ++ l /\ quiet l.
Proof.
  unfold Enhanced.get_git_status. unfold_monad. walk P; show_quiet.
Qed.

Lemma auto_status_is_quiet (P : Platform) (cfg : AutoCommit.config) (O : Type)
    (s : state P O) :
  self (snd (AutoCommit.get_git_status P cfg s)) = self s /\
  (exists v, fst (AutoCommit.get_git_status P cfg s) = Ok v) /\
  exists l, log (snd (AutoCommit.get_git_status P cfg s)) = log s ++ l /\ quiet l.
Proof.
  unfold AutoCommit.get_git_status. unfold_monad. walk P; show_quiet.
Qed.

Lemma pipeline_printed n : pipeline [Printed n] = [].
Proof. reflexivity. Qed.
Lemma pipeline_add o r : pipeline [Ran Git.add o r] = [(Add, verdict_of r)].
Proof. reflexivity. Qed.
Lemma pipeline_commit m o r :
  pipeline [Ran (Git.commit m) o r] = [(Commit, verdict_of r)].
Proof. reflexivity. Qed.
Lemma pipeline_push o r : pipeline [Ran Git.push o r] = [(Push, verdict_of r)].
Proof. reflexivity. Qed.
Lemma pipeline_push_to b o r :
  pipeline [Ran (Git.push_to b) o r] = [(Push, verdict_of r)].
Proof. reflexivity. Qed.
Lemma undoes_printed n : existsb undoes [Printed n] = false.
Proof. reflexivity. Qed.
Lemma undoes_add o r : existsb undoes [Ran Git.add o r] = false.
Proof. reflexivity. Qed.
Lemma undoes_commit m o r : existsb undoes [Ran (Git.commit m) o r] = false.
Proof. reflexivity. Qed.
Lemma undoes_push o r : existsb undoes [Ran Git.push o r] = false.
Proof. reflexivity. Qed.
Lemma undoes_push_to b o r : existsb undoes [Ran (Git.push_to b) o r] = false.
Proof. reflexivity. Qed.

Create Rewrite HintDb logs.
#[local] Hint Rewrite pipeline_app existsb_app pipeline_printed pipeline_add
  pipeline_commit pipeline_push pipeline_push_to undoes_printed undoes_add
  undoes_commit undoes_push undoes_push_to app_nil_r app_nil_l orb_false_r : logs.

(** Walks through a flush: the status query and the conflict check are
    taken by what they leave in the log, everything else is run. *)
Ltac walk_flush P :=
  repeat
    (match goal with
     | |- context [Enhanced.get_git_status P ?s0] =>
         let l := fresh "l" in
         let Hl := fresh "Hl" in
         let Hq := fresh "Hq" in
         let v := fresh "v" in
         let Hv := fresh "Hv" in
         let r := fresh "r" in
         let s1 := fresh "s" in
         destruct (enhanced_status_is_quiet P _ s0)
           as (_ & (v & Hv) & l & Hl & (Hq & ? & ?));
         destruct (Enhanced.get_git_status P s0) as [r s1];
         tidy; subst r; destruct v as [[?git_status|] ?error]; tidy
     | |- context [AutoCommit.get_git_status P ?c ?s0] =>
         let l := fresh "l" in
         let Hl := fresh "Hl" in
         let Hq := fresh "Hq" in
         let v := fresh "v" in
         let Hv := fresh "Hv" in
         let r := fresh "r" in
         let s1 := fresh "s" in
         destruct (auto_status_is_quiet P c _ s0)
           as (_ & (v & Hv) & l & Hl & (Hq & ? & ?));
         destruct (AutoCommit.get_git_status P c s0) as [r s1];
         tidy; subst r; destruct v as [[?git_status|] ?error]; tidy
     | |- context [check_for_conflicts P ?t ?s0] =>
         let l := fresh "l" in
         let Hl := fresh "Hl" in
         let Hq := fresh "Hq" in
         let v := fresh "v" in
         let Hv := fresh "Hv" in
         let r := fresh "r" in
         let s1 := fresh "s" in
         destruct (check_is_quiet P _ t s0)
           as (_ & (v & Hv) & l & Hl & (Hq & ? & ?));
         destruct (check_for_conflicts P t s0) as [r s1];
         tidy; subst r; destruct v as [[|] ?message]; tidy
     | |- context [subprocess_run P ?a ?o ?w] =>
         let r := fresh "r" in
         let w' := fresh "w" in
         destruct (subprocess_run P a o w) as [r w']; destruct r as [?p|?e];
         tidy
     | |- context [get_auth_config P ?w] =>
         let r := fresh "r" in
         let w' := fresh "w" in
         destruct (get_auth_config P w) as [r w']; destruct r as [?auth|?e];
         tidy
     | |- context [str_format P ?t ?ts ?n ?f] =>
         destruct (str_format P t ts n f) as [?message|?e]; tidy
     | |- context [ok ?p] => destruct (ok p) eqn:?; tidy
     | |- context [if ?b then _ else _] => destruct b eqn:?; tidy
     end).

(** After a walk: names the new part of the log and reads the pipeline
    off it. *)
Ltac read_log :=
  repeat match goal with H : log _ = _ |- _ => rewrite H; clear H end;
  rewrite <- ?app_assoc; eexists; split; [reflexivity|];
  autorewrite with logs;
  repeat match goal with H : pipeline _ = [] |- _ => rewrite H; clear H end;
  repeat match goal with H : existsb undoes _ = false |- _ => rewrite H; clear H end;
  unfold verdict_of;
  repeat match goal with H : ok _ = _ |- _ => rewrite H; clear H end;
  cbn [app orb];
  repeat split;
  try reflexivity;
  try (constructor; discriminate);
  try (cbn [In]; intuition congruence).

(** What a flush of [EnhancedGitAutomation] leaves in the log. *)
Lemma flush_pipeline (P : Platform) (cfg : Enhanced.config)
    (s : state P Enhanced.automation) :
  exists l,
    log (snd (Enhanced.process_changes P cfg s)) = log s ++ l /\
    stops_at_first_failure (pipeline l) /\
    existsb undoes l = false /\
    (In (Push, Failed) (pipeline l) ->
     fst (Enhanced.process_changes P cfg s) = Ok true) /\
    (fst (Enhanced.process_changes P cfg s) = Ok true ->
     In (Commit, Succeeded) (pipeline l)).
Proof.
  unfold Enhanced.process_changes, Enhanced.enter_flush. unfold_monad.
  destruct (Enhanced.processing_changes (self s) ||
            negb (0 <? length (Enhanced.pending_changes (self s)))%nat); tidy.
  - exists []. rewrite app_nil_r. split; [reflexivity|].
    split; [constructor|]. split; [reflexivity|].
    split; [intros []|discriminate].
  - unfold Enhanced.flush, Enhanced.flush_body, Enhanced.clear_pending,
      Enhanced.stamp_commit_time, Enhanced.auth_config, generate_commit_message.
    unfold_monad. walk_flush P; read_log.
Qed.

(** What [commit_changes] of [AutoGitCommitHandler] leaves in the log. *)
Lemma commit_changes_pipeline (P : Platform) (cfg : AutoCommit.config)
    (O : Type) (s : state P O) :
  exists l,
    log (snd (AutoCommit.commit_changes P cfg s)) = log s ++ l /\
    stops_at_first_failure (pipeline l) /\
    existsb undoes l = false /\
    (In (Push, Failed) (pipeline l) -> existsb is_commit_report l = true).
Proof.
  unfold AutoCommit.commit_changes, AutoCommit.commit_body, AutoCommit.format.
  unfold_monad. walk_flush P; read_log.
  all: intros _; autorewrite with logs; cbn [existsb is_commit_report orb];
    rewrite ?orb_true_r; reflexivity.
Qed.

(** C9. In both programs a flush runs [git commit] only after a
    [git add] that succeeded and [git push] only after a [git commit] that
    succeeded, and runs no command that takes a commit back.  When the push
    exits with an error, [process_changes] still returns [True] and
    [commit_changes] still prints that the commit succeeded. *)
Theorem pipeline_stops_at_first_failure (P : Platform) :
  (forall (cfg : Enhanced.config) (s : state P Enhanced.automation),
     exists l,
       log (snd (Enhanced.process_changes P cfg s)) = log s ++ l /\
       stops_at_first_failure (pipeline l) /\
       existsb undoes l = false /\
       (In (Push, Failed) (pipeline l) ->
        fst (Enhanced.process_changes P cfg s) = Ok true) /\
       (fst (Enhanced.process_changes P cfg s) = Ok true ->
        In (Commit, Succeeded) (pipeline l))) /\
  (forall (cfg : AutoCommit.config) (O : Type) (s : state P O),
     exists l,
       log (snd (AutoCommit.commit_changes P cfg s)) = log s ++ l /\
       stops_at_first_failure (pipeline l) /\
       existsb undoes l = false /\
       (In (Push, Failed) (pipeline l) -> existsb is_commit_report l = true)).
Proof.
  split; intros; [apply flush_pipeline | apply commit_changes_pipeline].
Qed.

(** A rejected push after a successful commit, in both programs. *)
Example push_rejected_commit_kept :
  (let r := Enhanced.process_changes Script.platform (Demo.enhanced true)
              (Script.start Demo.one_pending (Script.at_noon Script.offline)) in
   fst r = Ok true /\
   pipeline (log (snd r))
   = [(Add, Succeeded); (Commit, Succeeded); (Push, Failed)]) /\
  (let r := AutoCommit.commit_changes Script.platform (Demo.auto [lit "main"])
              (Script.start tt (Script.at_noon Script.offline)) in
   pipeline (log (snd r))
   = [(Add, Succeeded); (Commit, Succeeded); (Push, Failed)] /\
   existsb is_commit_report (log (snd r)) = true).
Proof. vm_compute. repeat split. Qed.

(** ** The branch allow-list *)

Lemma lstrip_head s c r : lstrip s = c :: r -> isspace c = false.
Proof.
  induction s as [|x s IH]; simpl; [discriminate|].
  destruct (isspace x) eqn:E; [exact IH|].
  intros H. injection H as -> _. exact E.
Qed.

Lemma lstrip_suffix s : exists pre, s = pre ++ lstrip s.
Proof.
  induction s as [|x s [pre IH]]; simpl; [now exists []|].
  destruct (isspace x); [|now exists []].
  exists (x :: pre). simpl. now rewrite <- IH.
Qed.

(** What [strip] leaves starts with a character that is not white space,
    so not with a line break. *)
Lemma strip_head s c r : strip s = c :: r -> isspace c = false.
Proof.
  unfold strip, rstrip. intros H.
  destruct (lstrip_suffix (rev (lstrip s))) as [pre Hpre].
  apply (f_equal (@rev N)) in Hpre. rewrite rev_involutive, rev_app_distr in Hpre.
  rewrite H in Hpre. simpl in Hpre. eapply lstrip_head. exact Hpre.
Qed.

Lemma split_head sep c r :
  N.eqb c sep = false -> exists h t, split sep (c :: r) = (c :: h) :: t.
Proof.
  intros H. simpl. rewrite H. destruct (split sep r) as [|h t]; eauto.
Qed.

(** A status output that is not blank lists at least one file. *)
Lemma changed_files_nonempty out :
  (0 <? len (strip out)) = true ->
  exists line lines,
    filter truthy (split newline (strip out)) = line :: lines.
Proof.
  intros H. destruct (strip out) as [|c r] eqn:E; [discriminate|].
  assert (Hc : N.eqb c newline = false).
  { apply strip_head in E. destruct (N.eqb_spec c newline) as [->|]; [|reflexivity].
    discriminate. }
  destruct (split_head newline c r Hc) as (h & t & ->). simpl. eauto.
Qed.

Section EmptyBranch.

Variable P : Platform.
Variable cfg : AutoCommit.config.
Variable O : Type.
Variable s : state P O.
Variables (status branch : CompletedProcess) (w1 w2 : World P).

Hypothesis status_runs :
  subprocess_run P Git.status (in_dir (AutoCommit.watch_directory cfg)) (world s)
  = (Ok status, w1).
Hypothesis status_ok : ok status = true.
Hypothesis branch_runs :
  subprocess_run P Git.show_current (in_dir (AutoCommit.watch_directory cfg)) w1
  = (Ok branch, w2).
Hypothesis no_branch_name : ok branch = false \/ strip (stdout branch) = [].


Hypothesis has_changes : (0 <? len (strip (stdout status))) = true.
Hypothesis template_fills : forall timestamp files_count files,
  exists message,
    str_format P (AutoCommit.commit_message_template cfg)
      timestamp files_count files = Ok message.



End EmptyBranch.


Example detached_head_is_committed :
  pipeline (log (snd (AutoCommit.commit_changes Script.platform
                        (Demo.auto [lit "main"])
                        (Script.start tt (Script.at_noon Script.detached)))))
  = [(Add, Succeeded); (Commit, Succeeded); (Push, Succeeded)].
Proof. vm_compute. reflexivity. Qed.

(** ** Recorded changes *)

(** One call of the handler: an accepted event appends its item, prints
    its line and starts a timer of [commit_delay]; any other event changes
    nothing. *)
Lemma on_any_event_effect (P : Platform) (cfg : Enhanced.config)
    (ev : fs_event) (s : state P Enhanced.automation) :
  Enhanced.on_any_event P cfg ev s =
  if accepts P cfg (world s) ev
  then (Ok (Some {| interval := Enhanced.commit_delay cfg |}),
        {| self := {| Enhanced.pending_changes :=
                        Enhanced.pending_changes (self s) ++
                        [recorded P (world s) ev];
                      Enhanced.processing_changes :=
                        Enhanced.processing_changes (self s);
                      Enhanced.last_commit_time :=
                        Enhanced.last_commit_time (self s) |};
           world := world s;
           log := log s ++ [Printed (FileChanged (fs_event_type ev) (src_path ev))] |})
  else (Ok None, s).
Proof.
  unfold Enhanced.on_any_event, accepts.
  destruct (is_directory ev); [reflexivity|]. cbn [negb andb].
  destruct (Enhanced.should_process_file P cfg (src_path ev) (world s));
    reflexivity.
Qed.

(** C5. A series of [on_any_event] calls with no flush in between appends
    one item per accepted event to [pending_changes], in the order of
    arrival and with the kind and path of that event; nothing is
    overwritten, so the last item for a path is its most recent event. *)
Theorem pending_changes_keep_every_event (P : Platform)
    (cfg : Enhanced.config) (evs : list fs_event)
    (s : state P Enhanced.automation) :
  Enhanced.pending_changes (self (record_all P cfg evs s))
  = Enhanced.pending_changes (self s) ++
    map (recorded P (world s)) (filter (accepts P cfg (world s)) evs) /\
  world (record_all P cfg evs s) = world s.
Proof.
  revert s. induction evs as [|ev evs IH]; intros s.
  - simpl. now rewrite app_nil_r.
  - cbn [record_all filter]. rewrite on_any_event_effect.
    destruct (accepts P cfg (world s) ev) eqn:E; cbn [snd].
    + destruct (IH {| self := {| Enhanced.pending_changes :=
                                   Enhanced.pending_changes (self s) ++
                                   [recorded P (world s) ev];
                                 Enhanced.processing_changes :=
                                   Enhanced.processing_changes (self s);
                                 Enhanced.last_commit_time :=
                                   Enhanced.last_commit_time (self s) |};
                      world := world s;
                      log := log s ++
                             [Printed (FileChanged (fs_event_type ev)
                                         (src_path ev))] |})
        as [H1 H2].
      cbn [self world Enhanced.pending_changes] in H1, H2. rewrite H1, H2.
      split; [|reflexivity]. cbn [map]. now rewrite <- app_assoc.
    + apply IH.
Qed.

(** Two events for the same path leave two items with that path. *)
Lemma same_path_recorded_twice :
  ~ NoDup (map Enhanced.file_path
             (Enhanced.pending_changes
                (self (record_all Script.platform (Demo.enhanced true)
                         [Script.edit "a.py"; Script.edit "a.py"]
                         (Script.start Demo.fresh (Script.at_noon Script.calm)))))).
Proof.
  vm_compute. intros H. inversion H as [|x l Hin _]. apply Hin. now left.
Qed.

(** ** Timers and flushes *)

Lemma length_set_nth {A} i (x : A) l :
  length (Scheduler.set_nth i x l) = length l.
Proof.
  revert i. induction l as [|y l IH]; intros [|i]; simpl; auto.
Qed.

Lemma nth_error_set_nth {A} i j (x : A) l :
  nth_error (Scheduler.set_nth i x l) j
  = if Nat.eqb i j
    then match nth_error l j with Some _ => Some x | None => None end
    else nth_error l j.
Proof.
  revert i j. induction l as [|y l IH]; intros [|i] [|j]; simpl; auto.
  - now destruct (Nat.eqb i j).
Qed.

(** Replacing one element changes a count by what leaves and what comes. *)
Lemma count_set_nth {A} (f : A -> bool) i (x old : A) l :
  nth_error l i = Some old ->
  (length (filter f (Scheduler.set_nth i x l)) + (if f old then 1 else 0)
   = length (filter f l) + (if f x then 1 else 0))%nat.
Proof.
  revert i. induction l as [|y l IH]; intros [|i] H; simpl in *; try discriminate.
  - injection H as ->. destruct (f old), (f x); simpl; lia.
  - specialize (IH i H). destruct (f y); simpl; lia.
Qed.

Section Threads.

Variable P : Platform.
Variable cfg : Enhanced.config.

Lemma enter_flush_effect (s : state P Enhanced.automation) :
  Enhanced.enter_flush P s =
  if Enhanced.processing_changes (self s) ||
     negb (0 <? length (Enhanced.pending_changes (self s)))%nat
  then (Ok false, s)
  else (Ok true, {| self := Enhanced.set_processing true (self s);
                    world := world s; log := log s |}).
Proof.
  unfold Enhanced.enter_flush. unfold_monad.
  destruct (Enhanced.processing_changes (self s) ||
            negb (0 <? length (Enhanced.pending_changes (self s)))%nat);
    reflexivity.
Qed.

(** The [try] statement always returns and always clears the marker. *)
Lemma flush_clears_marker (s : state P Enhanced.automation) :
  Enhanced.processing_changes (self (snd (Enhanced.flush P cfg s))) = false /\
  exists r, fst (Enhanced.flush P cfg s) = Ok r.
Proof.
  unfold Enhanced.flush. unfold_monad.
  destruct (Enhanced.flush_body P cfg s) as [[r|e] s']; tidy;
    (split; [reflexivity | eexists; reflexivity]).
Qed.

(** A flush prints no line of the event handler. *)
Lemma flush_accepts_nothing (s : state P Enhanced.automation) :
  Scheduler.accepted_events (log (snd (Enhanced.flush P cfg s)))
  = Scheduler.accepted_events (log s).
Proof.
  unfold Enhanced.flush, Enhanced.flush_body, Enhanced.clear_pending,
    Enhanced.stamp_commit_time, Enhanced.auth_config, generate_commit_message.
  unfold_monad. walk_flush P.
  all: repeat match goal with H : log _ = _ |- _ => rewrite H; clear H end;
    rewrite ?accepted_events_app;
    repeat match goal with
           | H : Scheduler.accepted_events _ = 0%nat |- _ => rewrite H; clear H
           end;
    cbn [Scheduler.accepted_events filter Scheduler.is_file_changed length];
    lia.
Qed.

Lemma act_keeps_invariants a sys sys' :
  Scheduler.act P cfg a sys = Some sys' ->
  one_timer_per_event P sys /\ marker_counts_flushes P sys ->
  one_timer_per_event P sys' /\ marker_counts_flushes P sys'.
Proof.
  unfold one_timer_per_event, marker_counts_flushes, Scheduler.flushes_executing.
  intros Hact [H1 H7]. destruct a as [ev|d|i|i|w]; cbn [Scheduler.act] in Hact.
  - rewrite on_any_event_effect in Hact.
    destruct (accepts P cfg (world (Scheduler.app sys)) ev);
      injection Hact as <-; cbn [Scheduler.app Scheduler.threads self log
                                  Enhanced.processing_changes].
    + rewrite length_app, accepted_events_app, filter_app, length_app, H1, H7.
      cbn. split; lia.
    + split; assumption.
  - destruct (d <? 0); [discriminate|]. injection Hact as <-.
    split; assumption.
  - destruct (nth_error (Scheduler.threads sys) i) as [[deadline| |r]|] eqn:E;
      try discriminate.
    destruct (Scheduler.clock sys <? deadline); [discriminate|].
    rewrite enter_flush_effect in Hact.
    pose proof (count_set_nth Scheduler.is_flushing i Scheduler.Flushing
                  _ _ E) as Hc1.
    destruct (Enhanced.processing_changes (self (Scheduler.app sys))) eqn:Ep;
      cbn [orb] in Hact.
    + injection Hact as <-.
      cbn [Scheduler.app Scheduler.threads self log]. rewrite length_set_nth.
      split; [assumption|]. rewrite Ep.
      pose proof (count_set_nth Scheduler.is_flushing i
                    (Scheduler.Returned (Ok false)) _ _ E) as Hc.
      cbn in Hc. lia.
    + destruct (negb (0 <? length (Enhanced.pending_changes
                                     (self (Scheduler.app sys))))%nat);
        injection Hact as <-;
        cbn [Scheduler.app Scheduler.threads self log
             Enhanced.processing_changes Enhanced.set_processing];
        rewrite length_set_nth; (split; [assumption|]); rewrite ?Ep.
      * pose proof (count_set_nth Scheduler.is_flushing i
                      (Scheduler.Returned (Ok false)) _ _ E) as Hc.
        cbn in Hc. lia.
      * cbn in Hc1. lia.
  - destruct (nth_error (Scheduler.threads sys) i) as [[deadline| |r]|] eqn:E;
      try discriminate.
    destruct (flush_clears_marker (Scheduler.app sys)) as [Hclear _].
    pose proof (flush_accepts_nothing (Scheduler.app sys)) as Hacc.
    destruct (Enhanced.flush P cfg (Scheduler.app sys)) as [r s'].
    injection Hact as <-. cbn [snd] in Hclear, Hacc.
    cbn [Scheduler.app Scheduler.threads]. rewrite length_set_nth, Hacc, Hclear.
    split; [assumption|].
    pose proof (count_set_nth Scheduler.is_flushing i (Scheduler.Returned r)
                  _ _ E) as Hc.
    cbn in Hc.
    destruct (Enhanced.processing_changes (self (Scheduler.app sys))); lia.
  - injection Hact as <-. split; assumption.
Qed.

Lemma exec_keeps_invariants schedule : forall sys sys',
  Scheduler.exec P cfg schedule sys = Some sys' ->
  one_timer_per_event P sys /\ marker_counts_flushes P sys ->
  one_timer_per_event P sys' /\ marker_counts_flushes P sys'.
Proof.
  induction schedule as [|a schedule IH]; intros sys sys' H Hinv; simpl in H.
  - now injection H as <-.
  - destruct (Scheduler.act P cfg a sys) as [sys1|] eqn:E; [|discriminate].
    eapply IH; [exact H|]. eapply act_keeps_invariants; eassumption.
Qed.

Lemma reachable_invariants sys :
  Scheduler.reachable P cfg sys ->
  one_timer_per_event P sys /\ marker_counts_flushes P sys.
Proof.
  intros (w & schedule & H). eapply exec_keeps_invariants; [exact H|].
  split; reflexivity.
Qed.

(** A waiting timer keeps its deadline until it goes off itself. *)
Lemma act_keeps_timers a sys sys' i d :
  Scheduler.act P cfg a sys = Some sys' ->
  nth_error (Scheduler.threads sys) i = Some (Scheduler.Waiting d) ->
  nth_error (Scheduler.threads sys') i = Some (Scheduler.Waiting d) \/
  (a = Scheduler.Fire i /\ d <= Scheduler.clock sys).
Proof.
  intros Hact Hi. destruct a as [ev|d'|j|j|w]; cbn [Scheduler.act] in Hact.
  - left. rewrite on_any_event_effect in Hact.
    destruct (accepts P cfg (world (Scheduler.app sys)) ev);
      injection Hact as <-; cbn [Scheduler.threads]; [|assumption].
    rewrite nth_error_app1; [assumption|].
    apply nth_error_Some. congruence.
  - left. destruct (d' <? 0); [discriminate|]. now injection Hact as <-.
  - destruct (nth_error (Scheduler.threads sys) j) as [[deadline| |r]|] eqn:E;
      try discriminate.
    destruct (Scheduler.clock sys <? deadline) eqn:Ec; [discriminate|].
    destruct (Nat.eq_dec j i) as [->|Hne].
    + right. rewrite Hi in E. injection E as ->.
      split; [reflexivity|]. apply Z.ltb_ge in Ec. exact Ec.
    + left.
      destruct (Enhanced.enter_flush P (Scheduler.app sys)) as [[[|]|e] s'];
        injection Hact as <-; cbn [Scheduler.threads];
        rewrite nth_error_set_nth;
        (destruct (Nat.eqb_spec j i); [contradiction|assumption]).
  - left.
    destruct (nth_error (Scheduler.threads sys) j) as [[deadline| |r]|] eqn:E;
      try discriminate.
    destruct (Enhanced.flush P cfg (Scheduler.app sys)) as [r s'].
    injection Hact as <-. cbn [Scheduler.threads]. rewrite nth_error_set_nth.
    destruct (Nat.eqb_spec j i) as [->|]; [congruence|assumption].
  - left. now injection Hact as <-.
Qed.

Lemma all_expired_attempts sys :
  Scheduler.all_expired P sys = true ->
  Scheduler.flush_attempts P sys = length (Scheduler.threads sys).
Proof.
  unfold Scheduler.all_expired, Scheduler.flush_attempts.
  induction (Scheduler.threads sys) as [|t l IH]; simpl; [reflexivity|].
  intros H. apply andb_prop in H as [Ht Hl]. rewrite Ht. simpl. now rewrite IH.
Qed.

Lemma attempts_bounded sys :
  (Scheduler.flush_attempts P sys <= length (Scheduler.threads sys))%nat.
Proof. unfold Scheduler.flush_attempts. apply filter_length_le. Qed.

(** C1. Every accepted event starts one more timer, due [commit_delay]
    after the event, and leaves the timers already waiting as they are; a
    timer stays due at the same time until it goes off itself, and when it
    does it calls [process_changes].  So at any moment there are as many
    timers as accepted events, and once all of them have gone off there
    have been as many flush attempts as accepted events.  The handler of
    [AutoGitCommitHandler] starts a timer for every accepted event in the
    same way. *)
Theorem every_event_starts_its_own_timer :
  (forall sys ev,
     accepts P cfg (world (Scheduler.app sys)) ev = true ->
     exists s',
       Scheduler.act P cfg (Scheduler.Deliver ev) sys
       = Some {| Scheduler.app := s';
                 Scheduler.clock := Scheduler.clock sys;
                 Scheduler.threads :=
                   Scheduler.threads sys ++
                   [Scheduler.Waiting
                      (Scheduler.clock sys + Enhanced.commit_delay cfg)] |}) /\
  (forall a sys sys' i d,
     Scheduler.act P cfg a sys = Some sys' ->
     nth_error (Scheduler.threads sys) i = Some (Scheduler.Waiting d) ->
     nth_error (Scheduler.threads sys') i = Some (Scheduler.Waiting d) \/
     (a = Scheduler.Fire i /\ d <= Scheduler.clock sys)) /\
  (forall sys,
     Scheduler.reachable P cfg sys ->
     length (Scheduler.threads sys)
     = Scheduler.accepted_events (log (Scheduler.app sys)) /\
     (Scheduler.flush_attempts P sys
      <= Scheduler.accepted_events (log (Scheduler.app sys)))%nat /\
     (Scheduler.all_expired P sys = true ->
      Scheduler.flush_attempts P sys
      = Scheduler.accepted_events (log (Scheduler.app sys)))) /\
  (forall (acfg : AutoCommit.config) (O : Type) (s : state P O) ev,
     is_directory ev = false ->
     AutoCommit.should_include_file P acfg (src_path ev) = true ->
     AutoCommit.on_any_event P acfg ev s
     = (Ok (Some {| interval := AutoCommit.commit_delay acfg |}),
        emit (Printed (FileChanged (fs_event_type ev) (src_path ev))) s)).
Proof.
  split; [|split; [|split]].
  - intros sys ev H. cbn [Scheduler.act]. rewrite on_any_event_effect, H.
    eexists. reflexivity.
  - apply act_keeps_timers.
  - intros sys H. destruct (reachable_invariants sys H) as [H1 _].
    unfold one_timer_per_event in H1. rewrite <- H1.
    split; [reflexivity|]. split; [apply attempts_bounded|].
    apply all_expired_attempts.
  - intros acfg O s ev Hd Hi. unfold AutoCommit.on_any_event.
    rewrite Hd, Hi. reflexivity.
Qed.

(** C7. In every state the process can reach at most one flush is
    executing, and one is executing exactly when the marker is set.  A call
    of [process_changes] that finds the marker set returns [False] and
    changes nothing.  The [try] statement of a flush always returns and
    always leaves the marker cleared, so that the next call with pending
    changes starts a flush. *)
Theorem at_most_one_flush :
  (forall sys,
     Scheduler.reachable P cfg sys ->
     (Scheduler.flushes_executing P sys <= 1)%nat /\
     (Scheduler.flushes_executing P sys = 1%nat <->
      Enhanced.processing_changes (self (Scheduler.app sys)) = true)) /\
  (forall s : state P Enhanced.automation,
     Enhanced.processing_changes (self s) = true ->
     Enhanced.process_changes P cfg s = (Ok false, s)) /\
  (forall s : state P Enhanced.automation,
     Enhanced.processing_changes (self (snd (Enhanced.flush P cfg s))) = false /\
     exists r, fst (Enhanced.flush P cfg s) = Ok r) /\
  (forall s : state P Enhanced.automation,
     Enhanced.pending_changes (self (snd (Enhanced.flush P cfg s))) <> [] ->
     fst (Enhanced.enter_flush P (snd (Enhanced.flush P cfg s))) = Ok true).
Proof.
  split; [|split; [|split]].
  - intros sys H. destruct (reachable_invariants sys H) as [_ H7].
    unfold marker_counts_flushes in H7. rewrite H7.
    destruct (Enhanced.processing_changes (self (Scheduler.app sys)));
      split; try lia; split; intros; try reflexivity; discriminate.
  - intros s H. unfold Enhanced.process_changes, bind.
    rewrite enter_flush_effect, H. reflexivity.
  - apply flush_clears_marker.
  - intros s H. rewrite enter_flush_effect.
    destruct (flush_clears_marker s) as [-> _].
    destruct (Enhanced.pending_changes (self (snd (Enhanced.flush P cfg s))));
      [contradiction|reflexivity].
Qed.

End Threads.

(** Three saves within the delay of each other: three timers go off, and
    each of the three flushes asks the repository for its status. *)
Lemma burst_flushes_once_per_event :
  option_map (Scheduler.flush_attempts Script.platform)
    (Scheduler.exec Script.platform (Demo.enhanced true) burst
       (Scheduler.boot Script.platform (Script.at_noon Script.calm)))
  = Some 3%nat /\
  option_map (fun sys => status_queries (log (Scheduler.app sys)))
    (Scheduler.exec Script.platform (Demo.enhanced true) burst
       (Scheduler.boot Script.platform (Script.at_noon Script.calm)))
  = Some 3%nat /\
  option_map (Scheduler.flush_attempts Script.platform)
    (Scheduler.exec Script.platform (Demo.enhanced true) burst
       (Scheduler.boot Script.platform (Script.at_noon Script.calm)))
  <> Some 1%nat.
Proof. vm_compute. repeat split. discriminate. Qed.

(** A timer that goes off during a flush returns at once. *)
Example second_flush_is_skipped :
  option_map (fun sys => Scheduler.threads sys)
    (Scheduler.exec Script.platform (Demo.enhanced true) overlap
       (Scheduler.boot Script.platform (Script.at_noon Script.calm)))
  = Some [Scheduler.Flushing; Scheduler.Returned (Ok false)].
Proof. vm_compute. reflexivity. Qed.

(** * Further properties *)

(** ** Counting files by category *)

Lemma files_in_cons (P : Platform) f files c :
  files_in P (f :: files) c
  = ((if category_eqb (classify P f) c then 1 else 0) + files_in P files c)%nat.
Proof.
  unfold files_in. cbn [filter].
  destruct (category_eqb (classify P f) c); reflexivity.
Qed.

(** Every file falls under exactly one category. *)
Lemma files_in_total (P : Platform) files :
  list_sum (map (files_in P files) all_categories) = length files.
Proof.
  unfold list_sum.
  induction files as [|f files IH]; [reflexivity|].
  cbn [all_categories map fold_right] in *. rewrite !files_in_cons.
  cbn [length]. rewrite <- IH. destruct (classify P f); cbn; lia.
Qed.

Lemma list_sum_positive (n : category -> nat) (l : list category) :
  list_sum (map snd (filter (fun kv => (0 <? snd kv)%nat)
                            (map (fun c => (c, n c)) l)))
  = list_sum (map n l).
Proof.
  unfold list_sum.
  induction l as [|c l IH]; [reflexivity|]. cbn [map filter snd].
  destruct (0 <? n c)%nat eqn:E; cbn [map fold_right snd]; rewrite IH.
  - reflexivity.
  - apply Nat.ltb_ge in E. lia.
Qed.

(** X1. [_categorize_files] counts every file once: the counts it returns
    add up to the number of files, no category is returned with a count of
    zero, the categories come in the fixed order, and each count is the
    number of files of that category. *)
Theorem categorize_accounts_for_every_file (P : Platform) (files : list str) :
  list_sum (map snd (_categorize_files P files)) = length files /\
  Forall (fun kv => (0 < snd kv)%nat) (_categorize_files P files) /\
  map fst (_categorize_files P files)
  = filter (fun c => (0 <? files_in P files c)%nat) all_categories /\
  (forall c, item (_categorize_files P files) c = files_in P files c).
Proof.
  split; [|split; [|split]].
  - unfold _categorize_files. rewrite count_files_dict. unfold dict_of.
    rewrite list_sum_positive. apply files_in_total.
  - unfold _categorize_files. apply Forall_forall. intros kv H.
    apply filter_In in H as [_ H]. now apply Nat.ltb_lt.
  - unfold _categorize_files. rewrite count_files_dict. apply keys_of_positive.
  - apply item_categorized.
Qed.

(** ** The kind of a set of changes *)

Lemma nodup_constant (t : str) (l : list str) :
  l <> [] -> (forall x, In x l -> x = t) ->
  nodup (list_eq_dec N.eq_dec) l = [t].
Proof.
  induction l as [|x l IH]; [contradiction|]. intros _ H.
  assert (x = t) as -> by (apply H; now left).
  destruct l as [|y l].
  - reflexivity.
  - cbn [nodup]. destruct (in_dec (list_eq_dec N.eq_dec) t (y :: l)) as [_|Hn].
    + apply IH; [discriminate|]. intros z Hz. apply H. now right.
    + exfalso. apply Hn. left. apply H. right. now left.
Qed.

(** X2. The change type handed to the message generator is the type of the
    changes when they all have the same type, and ['mixed'] as soon as two
    of them differ. *)
Theorem primary_change_type_single_or_mixed (changes : list Enhanced.change) :
  (forall t, changes <> [] ->
             (forall c, In c changes -> Enhanced.type c = t) ->
             Enhanced.primary_change_type changes = t) /\
  (forall c1 c2, In c1 changes -> In c2 changes ->
                 Enhanced.type c1 <> Enhanced.type c2 ->
                 Enhanced.primary_change_type changes = lit "mixed").
Proof.
  split.
  - intros t Hne Hall. unfold Enhanced.primary_change_type.
    rewrite (nodup_constant t); [reflexivity| |].
    + destruct changes; [contradiction|discriminate].
    + intros x Hx. apply in_map_iff in Hx as (c & <- & Hc). now apply Hall.
  - intros c1 c2 H1 H2 Hne. unfold Enhanced.primary_change_type.
    assert (In1 : In (Enhanced.type c1)
                    (nodup (list_eq_dec N.eq_dec) (map Enhanced.type changes)))
      by (apply nodup_In, in_map, H1).
    assert (In2 : In (Enhanced.type c2)
                    (nodup (list_eq_dec N.eq_dec) (map Enhanced.type changes)))
      by (apply nodup_In, in_map, H2).
    destruct (nodup (list_eq_dec N.eq_dec) (map Enhanced.type changes))
      as [|a [|b l]]; try reflexivity.
    destruct In1 as [E1|[]], In2 as [E2|[]]. congruence.
Qed.

(** ** The cap on the generated message *)

(** X3. With a cap of at least three characters (the default is 100) the
    message that [generate_commit_message] returns is never longer than the
    cap: it is the assembled message when that fits, otherwise that
    message's first [cap - 3] characters followed by three dots; limiting it
    once more would change nothing. *)
Theorem generated_message_within_cap (P : Platform) (O : Type)
    (cfg : generator_config) (change_type : str) (files : list str)
    (s : state P O) :
  3 <= get (max_message_length cfg) 100 ->
  exists msg,
    fst (generate_commit_message P cfg change_type files s) = Ok msg /\
    len msg <= get (max_message_length cfg) 100 /\
    (len (assembled_message P cfg (strftime (datetime_now P (world s)))
            change_type files) <= get (max_message_length cfg) 100 ->
     msg = assembled_message P cfg (strftime (datetime_now P (world s)))
             change_type files) /\
    (get (max_message_length cfg) 100
     < len (assembled_message P cfg (strftime (datetime_now P (world s)))
              change_type files) ->
     msg = firstn (Z.to_nat (get (max_message_length cfg) 100 - 3))
             (assembled_message P cfg (strftime (datetime_now P (world s)))
                change_type files) ++ lit "...") /\
    limit_length (get (max_message_length cfg) 100) msg = msg.
Proof.
  intros Hcap. eexists. split; [reflexivity|].
  split; [now apply limit_length_bound|].
  split; [intros H; now apply limit_length_within|].
  split.
  - intros H. now apply limit_length_beyond.
  - apply limit_length_within. now apply limit_length_bound.
Qed.

Lemma generated_message_within_cap_witness :
  3 <= get (max_message_length Demo.defaults) 100 /\
  exists msg,
    fst (generate_commit_message Script.platform Demo.defaults (lit "modified")
           Demo.tied_files (Script.start tt (Script.at_noon Script.calm)))
    = Ok msg /\
    len msg <= get (max_message_length Demo.defaults) 100.
Proof.
  split; [simpl; lia|].
  destruct (generated_message_within_cap Script.platform unit Demo.defaults
              (lit "modified") Demo.tied_files
              (Script.start tt (Script.at_noon Script.calm)))
    as (msg & H1 & H2 & _); [simpl; lia|].
  exists msg. split; assumption.
Defined.

(** ** Reading the status output *)





(** X5. In the dictionary that [get_git_status] of [auto_commit.py]
    returns, [has_changes] is true exactly when [changed_files] is not
    empty, and no error comes with it; so [commit_changes] never meets
    changes without files. *)
Theorem auto_status_has_changes_iff_files (P : Platform)
    (cfg : AutoCommit.config) (O : Type) (s : state P O)
    (git_status : AutoCommit.git_status) (error : option str) :
  fst (AutoCommit.get_git_status P cfg s) = Ok (Some git_status, error) ->
  error = None /\
  (AutoCommit.has_changes git_status = true <->
   AutoCommit.changed_files git_status <> []).
Proof.
  unfold AutoCommit.get_git_status. unfold_monad. walk P; intros H;
    try discriminate.
  all: injection H as <- <-; split; [reflexivity|].
  all: cbn [AutoCommit.has_changes AutoCommit.changed_files].
  all: match goal with
       | |- context [strip (stdout ?r)] => set (out := stdout r)
       end.
  all: split;
    [ intros Hc; destruct (changed_files_nonempty out Hc) as (l & ls & ->);
      discriminate
    | intros Hf; destruct (strip out) as [|c r]; [now contradiction Hf|];
      reflexivity ].
Qed.

Lemma auto_status_has_changes_iff_files_witness :
  fst (AutoCommit.get_git_status Script.platform (Demo.auto [lit "main"])
         (Script.start tt (Script.at_noon Script.calm)))
  = Ok (Some {| AutoCommit.changed_files := [lit ".py"];
                AutoCommit.current_branch := Some (lit "main");
                AutoCommit.has_changes := true |}, None) /\
  (true = true <-> [lit ".py"] <> []).
Proof.
  split; [reflexivity|].
  apply (auto_status_has_changes_iff_files Script.platform
           (Demo.auto [lit "main"]) unit
           (Script.start tt (Script.at_noon Script.calm))
           {| AutoCommit.changed_files := [lit ".py"];
              AutoCommit.current_branch := Some (lit "main");
              AutoCommit.has_changes := true |} None).
  reflexivity.
Defined.

(** X6. [get_git_status] of [enhanced_git_automation.py] never raises and
    returns either a status with no error, in which [total_changes] is the
    number of changes and [has_changes] says whether there is one, or no
    status with an error text that is not empty. *)
Theorem enhanced_status_outcomes (P : Platform) (O : Type) (s : state P O) :
  (exists info,
     fst (Enhanced.get_git_status P s) = Ok (Some info, None) /\
     Enhanced.total_changes info = length (Enhanced.changes info) /\
     (Enhanced.has_changes info = true <-> Enhanced.changes info <> [])) \/
  (exists e,
     fst (Enhanced.get_git_status P s) = Ok (None, Some e) /\ truthy e = true).
Proof.
  unfold Enhanced.get_git_status. unfold_monad. walk P.
  all: try (right; eexists; split; reflexivity).
  all: left; eexists; split; [reflexivity|]; split; [reflexivity|].
  all: cbn [Enhanced.has_changes Enhanced.changes].
  all: destruct (map Enhanced.parse_status_line _); split;
    try discriminate; try reflexivity; intros H; now contradiction H.
Qed.

(** ** What a conflict check does *)

(** Everything a conflict check leaves behind: it returns, leaves [self]
    alone, runs the inspection commands in their order and nothing else,
    and its verdict is [True] exactly when one of the answers shows what it
    calls a conflict. *)
Lemma check_summary (P : Platform) (O : Type) (target : option str)
    (s : state P O) :
  self (snd (check_for_conflicts P target s)) = self s /\
  exists v l,
    fst (check_for_conflicts P target s) = Ok v /\
    log (snd (check_for_conflicts P target s)) = log s ++ l /\
    forallb plain_run l = true /\
    (exists branch ancestor n,
       (1 <= n)%nat /\ commands l = firstn n (inspection branch ancestor)) /\
    fst v = existsb reports_conflict l /\
    marks l = [Check] /\
    quiet l.
Proof.
  unfold check_for_conflicts. unfold_monad. walk P.
  all: split; [reflexivity|].
  all: eexists; rewrite <- ?app_assoc; eexists.
  all: split; [reflexivity|]; split; [reflexivity|]; split; [reflexivity|].
  all: split;
    [ match goal with
      | |- context [Ran (Git.merge_tree ?a ?b)] =>
          exists b, a, 5%nat; split; [lia|reflexivity]
      | |- context [Ran (Git.merge_base ?b)] =>
          exists b, [], 4%nat; split; [lia|reflexivity]
      | |- context [Ran Git.unpushed] =>
          exists [], [], 3%nat; split; [lia|reflexivity]
      | |- context [Ran Git.show_current] =>
          exists [], [], 2%nat; split; [lia|reflexivity]
      | |- _ => exists [], [], 1%nat; split; [lia|reflexivity]
      end | ].
  all: split; [|split; [reflexivity|repeat split; reflexivity]].
  all: cbn [existsb reports_conflict app orb fst].
  all: change (str_eqb (subcommand Git.fetch) (lit "log")) with false;
       change (str_eqb (subcommand Git.fetch) (lit "merge-tree")) with false;
       change (str_eqb (subcommand Git.show_current) (lit "log")) with false;
       change (str_eqb (subcommand Git.show_current) (lit "merge-tree")) with false;
       change (str_eqb (subcommand Git.unpushed) (lit "log")) with true;
       change (str_eqb (subcommand Git.unpushed) (lit "merge-tree")) with false.
  all: repeat match goal with
       | |- context [str_eqb (subcommand (Git.merge_base ?b)) ?x] =>
           change (str_eqb (subcommand (Git.merge_base b)) x) with false
       | |- context [str_eqb (subcommand (Git.merge_tree ?a ?b)) (lit "log")] =>
           change (str_eqb (subcommand (Git.merge_tree a b)) (lit "log")) with false
       | |- context [str_eqb (subcommand (Git.merge_tree ?a ?b)) (lit "merge-tree")] =>
           change (str_eqb (subcommand (Git.merge_tree a b)) (lit "merge-tree")) with true
       end.
  all: cbn [andb orb].
  all: repeat match goal with
       | H : ?b = true |- context [?b] => rewrite H
       | H : ?b = false |- context [?b] => rewrite H
       end.
  all: cbn [andb orb]; rewrite ?andb_false_r, ?orb_false_r, ?orb_true_r;
    reflexivity.
Qed.

(** X7. [check_for_conflicts] never raises and never changes the
    automation object.  It runs [git fetch origin] first and then, in this
    order and as far as it gets, [git branch --show-current],
    [git log --oneline origin/HEAD..HEAD], [git merge-base] and
    [git merge-tree]: between one and five commands, each without [cwd] and
    [env], and it neither sleeps nor prints. *)
Theorem check_only_inspects (P : Platform) (O : Type) (target : option str)
    (s : state P O) :
  exists v l branch ancestor n,
    fst (check_for_conflicts P target s) = Ok v /\
    self (snd (check_for_conflicts P target s)) = self s /\
    log (snd (check_for_conflicts P target s)) = log s ++ l /\
    forallb plain_run l = true /\
    (1 <= n <= 5)%nat /\
    commands l = firstn n (inspection branch ancestor) /\
    length l = n.
Proof.
  destruct (check_summary P O target s)
    as (Hself & v & l & Hv & Hl & Hplain & (b & a & n & Hn & Hc) & _).
  assert (Hlen : length (commands l) = length l).
  { clear - Hplain. induction l as [|ev l IH]; [reflexivity|].
    cbn [forallb] in Hplain. apply andb_prop in Hplain as [Hev Hl].
    destruct ev; try discriminate. cbn [commands flat_map app length].
    f_equal. now apply IH. }
  assert (Hbound : (n <= 5)%nat \/ (5 < n)%nat) by lia.
  destruct Hbound as [Hle|Hgt].
  - exists v, l, b, a, n. repeat split; try assumption; try lia.
    rewrite <- Hlen, Hc, length_firstn. cbn [inspection length]. lia.
  - exists v, l, b, a, 5%nat. repeat split; try assumption; try lia.
    + rewrite Hc. rewrite !firstn_all2; cbn [inspection length]; try lia.
      reflexivity.
    + rewrite <- Hlen, Hc, length_firstn. cbn [inspection length]. lia.
Qed.

(** X8. The first component of what [check_for_conflicts] returns is
    [True] exactly when one of the commands it ran exited with zero and
    answered either with a list of commits that are not pushed or with a
    merge result that carries a conflict marker.  A fetch that fails, a
    merge base that cannot be found and a command that raises all give
    [False]. *)
Theorem conflict_verdict_follows_answers (P : Platform) (O : Type)
    (target : option str) (s : state P O) :
  exists v l,
    fst (check_for_conflicts P target s) = Ok v /\
    log (snd (check_for_conflicts P target s)) = log s ++ l /\
    fst v = existsb reports_conflict l.
Proof.
  destruct (check_summary P O target s)
    as (_ & v & l & Hv & Hl & _ & _ & He & _).
  now exists v, l.
Qed.

(** ** What a flush returns *)

(** The status query returns, leaves [self] alone, and neither runs a
    pipeline step nor shows a conflict nor starts a round. *)
Lemma status_summary (P : Platform) (O : Type) (s : state P O) :
  self (snd (Enhanced.get_git_status P s)) = self s /\
  exists v l,
    fst (Enhanced.get_git_status P s) = Ok v /\
    log (snd (Enhanced.get_git_status P s)) = log s ++ l /\
    quiet l /\
    existsb reports_conflict l = false /\
    marks l = [].
Proof.
  unfold Enhanced.get_git_status. unfold_monad. walk P.
  all: split; [reflexivity|].
  all: eexists; rewrite <- ?app_assoc; eexists.
  all: split; [reflexivity|]; split; [reflexivity|].
  all: split; [repeat split; reflexivity|].
  all: split; [|reflexivity].
  all: cbn [existsb reports_conflict app orb].
  all: change (str_eqb (subcommand Git.rev_parse) (lit "log")) with false;
       change (str_eqb (subcommand Git.rev_parse) (lit "merge-tree")) with false;
       change (str_eqb (subcommand Git.show_current) (lit "log")) with false;
       change (str_eqb (subcommand Git.show_current) (lit "merge-tree")) with false;
       change (str_eqb (subcommand Git.status_v1) (lit "log")) with false;
       change (str_eqb (subcommand Git.status_v1) (lit "merge-tree")) with false.
  all: cbn [andb orb]; rewrite ?andb_false_r; reflexivity.
Qed.

Lemma reports_printed n : existsb reports_conflict [Printed n] = false.
Proof. reflexivity. Qed.
Lemma reports_add o r : existsb reports_conflict [Ran Git.add o r] = false.
Proof. destruct r; cbn; rewrite ?andb_false_r; reflexivity. Qed.
Lemma reports_commit m o r :
  existsb reports_conflict [Ran (Git.commit m) o r] = false.
Proof. destruct r; cbn; rewrite ?andb_false_r; reflexivity. Qed.
Lemma reports_push_to b o r :
  existsb reports_conflict [Ran (Git.push_to b) o r] = false.
Proof. destruct r; cbn; rewrite ?andb_false_r; reflexivity. Qed.
Lemma marks_printed n : marks [Printed n] = [].
Proof. reflexivity. Qed.
Lemma marks_add o r : marks [Ran Git.add o r] = [].
Proof. reflexivity. Qed.
Lemma marks_commit m o r : marks [Ran (Git.commit m) o r] = [].
Proof. reflexivity. Qed.
Lemma marks_push_to b o r : marks [Ran (Git.push_to b) o r] = [].
Proof. reflexivity. Qed.

#[local] Hint Rewrite reports_printed reports_add reports_commit reports_push_to
  marks_app marks_printed marks_add marks_commit marks_push_to
  orb_true_r orb_false_l : logs.

(** Walks through a flush of [EnhancedGitAutomation] and keeps what the
    status query and the conflict check say about themselves. *)
Ltac walk_process P :=
  repeat
    (match goal with
     | |- context [Enhanced.get_git_status P ?s0] =>
         let l := fresh "l" in
         let Hl := fresh "Hl" in
         let Hself := fresh "Hself" in
         let v := fresh "v" in
         let Hv := fresh "Hv" in
         let r := fresh "r" in
         let s1 := fresh "s" in
         destruct (status_summary P _ s0)
           as (Hself & v & l & Hv & Hl & (? & ? & ?) & ? & ?);
         destruct (Enhanced.get_git_status P s0) as [r s1];
         tidy; subst r; destruct v as [[?git_status|] ?error]; tidy
     | |- context [check_for_conflicts P ?t ?s0] =>
         let l := fresh "l" in
         let Hl := fresh "Hl" in
         let Hself := fresh "Hself" in
         let v := fresh "v" in
         let Hv := fresh "Hv" in
         let r := fresh "r" in
         let s1 := fresh "s" in
         destruct (check_summary P _ t s0)
           as (Hself & v & l & Hv & Hl & _ & _ & ? & ? & (? & ? & ?));
         destruct (check_for_conflicts P t s0) as [r s1];
         tidy; subst r; destruct v as [[|] ?message]; tidy
     | |- context [subprocess_run P ?a ?o ?w] =>
         let r := fresh "r" in
         let w' := fresh "w" in
         destruct (subprocess_run P a o w) as [r w']; destruct r as [?p|?e];
         tidy
     | |- context [get_auth_config P ?w] =>
         let r := fresh "r" in
         let w' := fresh "w" in
         destruct (get_auth_config P w) as [r w']; destruct r as [?auth|?e];
         tidy
     | |- context [ok ?p] => destruct (ok p) eqn:?; tidy
     | |- context [if ?b then _ else _] => destruct b eqn:?; tidy
     end).

(** Brings what is known about the intermediate states into the goal. *)
Ltac use_states :=
  repeat match goal with
         | H : self _ = _ |- _ => rewrite H in *; clear H
         | H : log _ = _ |- _ => rewrite H in *; clear H
         end;
  rewrite <- ?app_assoc.

Ltac use_logs :=
  autorewrite with logs;
  repeat match goal with
         | H : pipeline _ = [] |- _ => rewrite H
         | H : existsb reports_conflict _ = _ |- _ => rewrite H
         | H : _ = existsb reports_conflict _ |- _ => rewrite <- H
         | H : marks _ = _ |- _ => rewrite H
         end;
  cbn [app orb].

Lemma flush_evidence (P : Platform) (cfg : Enhanced.config)
    (s : state P Enhanced.automation) :
  exists l,
    log (snd (Enhanced.process_changes P cfg s)) = log s ++ l /\
    (Enhanced.conflict_handling_enabled cfg = true ->
     pipeline l <> [] -> existsb reports_conflict l = true) /\
    (marks l = [] \/ marks l = [Check]) /\
    (Enhanced.conflict_handling_enabled cfg = false -> marks l = []).
Proof.
  unfold Enhanced.process_changes, Enhanced.enter_flush. unfold_monad.
  destruct (Enhanced.processing_changes (self s) ||
            negb (0 <? length (Enhanced.pending_changes (self s)))%nat); tidy.
  - exists []. rewrite app_nil_r. split; [reflexivity|].
    split; [intros _ H; now contradiction H|]. split; [now left|].
    reflexivity.
  - unfold Enhanced.flush, Enhanced.flush_body, Enhanced.clear_pending,
      Enhanced.stamp_commit_time, Enhanced.auth_config, generate_commit_message.
    unfold_monad. walk_process P.
    all: use_states; eexists; (split; [reflexivity|]).
    all: use_logs.
    all: split; [intros; try reflexivity; try discriminate; congruence|].
    all: split; [first [left; reflexivity | right; reflexivity]|].
    all: intros; try reflexivity; congruence.
Qed.

(** A flush never raises, leaves the marker as it found it, and what it
    returns tells what became of the queue. *)
Lemma flush_outcome (P : Platform) (cfg : Enhanced.config)
    (s : state P Enhanced.automation) :
  exists (flushed : bool) l,
    fst (Enhanced.process_changes P cfg s) = Ok flushed /\
    log (snd (Enhanced.process_changes P cfg s)) = log s ++ l /\
    Enhanced.processing_changes (self (snd (Enhanced.process_changes P cfg s)))
    = Enhanced.processing_changes (self s) /\
    (flushed = true ->
     Enhanced.pending_changes (self (snd (Enhanced.process_changes P cfg s))) = [] /\
     Enhanced.last_commit_time (self (snd (Enhanced.process_changes P cfg s)))
     = time_time P (world (snd (Enhanced.process_changes P cfg s))) /\
     Enhanced.processing_changes (self s) = false /\
     Enhanced.pending_changes (self s) <> []) /\
    (flushed = false ->
     Enhanced.last_commit_time (self (snd (Enhanced.process_changes P cfg s)))
     = Enhanced.last_commit_time (self s) /\
     (Enhanced.pending_changes (self (snd (Enhanced.process_changes P cfg s)))
      = Enhanced.pending_changes (self s) \/
      Enhanced.pending_changes (self (snd (Enhanced.process_changes P cfg s))) = [] /\
      pipeline l = [])).
Proof.
  unfold Enhanced.process_changes, Enhanced.enter_flush. unfold_monad.
  destruct (Enhanced.processing_changes (self s)) eqn:Hmarker;
    [|destruct (Enhanced.pending_changes (self s)) as [|c q] eqn:Hqueue];
    cbn [orb negb Nat.ltb Nat.leb length]; tidy.
  - exists false, []. rewrite app_nil_r, Hmarker.
    repeat split; try discriminate; auto.
  - exists false, []. rewrite app_nil_r, Hmarker, Hqueue.
    repeat split; try discriminate; auto.
  - unfold Enhanced.flush, Enhanced.flush_body, Enhanced.clear_pending,
      Enhanced.stamp_commit_time, Enhanced.auth_config, generate_commit_message,
      Enhanced.set_processing.
    unfold_monad. walk_process P.
    all: use_states; eexists; eexists; (split; [reflexivity|]);
      (split; [reflexivity|]).
    all: cbn [Enhanced.processing_changes Enhanced.pending_changes
              Enhanced.last_commit_time self world log].
    all: rewrite ?Hmarker, ?Hqueue.
    all: (split; [reflexivity|]).
    all: split; intros Hflag; try discriminate Hflag.
    all: try (repeat split; try reflexivity; discriminate).
    all: split; [reflexivity|].
    all: try (left; reflexivity).
    all: right; split; [reflexivity|]; use_logs; reflexivity.
Qed.


(** X9. With conflict handling switched on, [process_changes] stages,
    commits or pushes only after [check_for_conflicts] has been shown what
    it calls a conflict: commits that are not pushed, or a conflict marker
    in the merge result.  When no answer shows one (the check comes back
    clean, the fetch fails, a command raises), the flush returns [False]
    with nothing staged.  The flush holds at most one conflict check and
    never pulls or waits. *)
Theorem staging_needs_reported_conflict (P : Platform) (cfg : Enhanced.config)
    (s : state P Enhanced.automation) :
  Enhanced.conflict_handling_enabled cfg = true ->
  exists l,
    log (snd (Enhanced.process_changes P cfg s)) = log s ++ l /\
    (pipeline l <> [] -> existsb reports_conflict l = true) /\
    (existsb reports_conflict l = false ->
     fst (Enhanced.process_changes P cfg s) = Ok false /\ pipeline l = []) /\
    (marks l = [] \/ marks l = [Check]).
Proof.
  intros Henabled.
  destruct (flush_evidence P cfg s) as (l & Hl & Hev & Hmarks & _).
  destruct (flush_outcome P cfg s) as (flushed & l1 & Hr & Hl1 & _).
  destruct (flush_pipeline P cfg s) as (l2 & Hl2 & _ & _ & _ & Hcommit).
  rewrite Hl in Hl1, Hl2.
  apply app_inv_head in Hl1, Hl2. subst l1 l2.
  exists l. split; [exact Hl|]. split; [now apply Hev|].
  split; [|exact Hmarks].
  intros Hnone.
  assert (Hp : pipeline l = []).
  { destruct (pipeline l) eqn:E; [reflexivity|].
    rewrite Hev in Hnone; [discriminate|assumption|discriminate]. }
  split; [|exact Hp].
  destruct flushed; [|exact Hr].
  specialize (Hcommit Hr). rewrite Hp in Hcommit. destruct Hcommit.
Qed.

(** One local commit waits to be pushed: the flush goes through. *)
Lemma staging_needs_reported_conflict_witness :
  exists l,
    log (snd (Enhanced.process_changes Script.platform (Demo.enhanced true)
                (Script.start Demo.one_pending (Script.at_noon Script.ahead))))
    = log (Script.start Demo.one_pending (Script.at_noon Script.ahead)) ++ l /\
    (pipeline l <> [] -> existsb reports_conflict l = true) /\
    (existsb reports_conflict l = false ->
     fst (Enhanced.process_changes Script.platform (Demo.enhanced true)
            (Script.start Demo.one_pending (Script.at_noon Script.ahead)))
     = Ok false /\ pipeline l = []) /\
    (marks l = [] \/ marks l = [Check]).
Proof.
  apply (staging_needs_reported_conflict Script.platform (Demo.enhanced true)
           (Script.start Demo.one_pending (Script.at_noon Script.ahead))).
  reflexivity.
Defined.

(** The two ways such a flush can go. *)
Example clean_check_abandons_flush :
  pipeline (log (snd (Enhanced.process_changes Script.platform
                        (Demo.enhanced true)
                        (Script.start Demo.one_pending
                           (Script.at_noon Script.calm))))) = [] /\
  pipeline (log (snd (Enhanced.process_changes Script.platform
                        (Demo.enhanced true)
                        (Script.start Demo.one_pending
                           (Script.at_noon Script.ahead)))))
  = [(Add, Succeeded); (Commit, Succeeded); (Push, Succeeded)].
Proof. split; vm_compute; reflexivity. Qed.


(** ** The rounds of [handle_conflicts] in any repository *)

Lemma marks_pull o r : marks [Ran Git.pull o r] = [Pull].
Proof. reflexivity. Qed.
Lemma marks_merge_commit o r : marks [Ran Git.merge_commit o r] = [].
Proof. reflexivity. Qed.
Lemma marks_slept d : marks [Slept d] = [Wait d].
Proof. reflexivity. Qed.

#[local] Hint Rewrite marks_pull marks_merge_commit marks_slept : logs.

Section Rounds.

Variable P : Platform.
Variable cfg : conflict_config.
Variable O : Type.

Let delay := get (retry_delay cfg) 2.

(** One round never raises when the delay is not negative.  It goes on to
    the next round only after a pull and a wait and only when a round is
    left; it ends in failure only when none is left. *)
Lemma round_summary (attempt max_retries : Z) (s : state P O) :
  0 <= delay ->
  exists r l,
    fst (attempt_once P cfg attempt max_retries s) = Ok r /\
    self (snd (attempt_once P cfg attempt max_retries s)) = self s /\
    log (snd (attempt_once P cfg attempt max_retries s)) = log s ++ l /\
    match r with
    | Continue =>
        (attempt <? max_retries - 1) = true /\
        marks l = [Check; Pull; Wait delay]
    | Return v =>
        (fst v = true /\ In (snd v) success_reasons /\
         (marks l = [Check] \/ marks l = [Check; Pull])) \/
        (fst v = false /\ failure_reason (snd v) /\
         (attempt <? max_retries - 1) = false /\ marks l = [Check; Pull])
    end.
Proof.
  intros Hd. apply Z.ltb_ge in Hd.
  unfold attempt_once, attempt_body. unfold_monad. fold delay.
  rewrite Hd. walk_process P.
  all: use_states; eexists; eexists; (split; [reflexivity|]);
    (split; [reflexivity|]); (split; [reflexivity|]).
  all: use_logs.
  all: try (split; reflexivity).
  all: try (left; split; [reflexivity|]; split;
            [cbn; tauto|first [left; reflexivity|right; reflexivity]]).
  all: right; split; [reflexivity|]; split;
    [eexists; first [left; reflexivity|right; reflexivity]|];
    split; reflexivity.
Qed.

Lemma spaced_rounds_step (k : nat) (d : Z) :
  spaced_rounds (S (S k)) d = Check :: Pull :: Wait d :: spaced_rounds (S k) d.
Proof. reflexivity. Qed.

Lemma attempts_from_step (remaining : nat) (attempt max_retries : Z)
    (s : state P O) :
  attempts_from P cfg (S remaining) attempt max_retries s
  = match attempt_once P cfg attempt max_retries s with
    | (Ok (Return v), s1) => (Ok v, s1)
    | (Ok Continue, s1) =>
        attempts_from P cfg remaining (attempt + 1) max_retries s1
    | (Raise e, s1) => (Raise e, s1)
    end.
Proof.
  cbn [attempts_from]. unfold bind, ret.
  destruct (attempt_once P cfg attempt max_retries s) as [[[v|]|e] s1];
    reflexivity.
Qed.

(** The loop from round [attempt] on, when [remaining] rounds are left. *)
Lemma rounds_summary (remaining : nat) :
  forall (attempt max_retries : Z) (s : state P O),
  0 <= delay ->
  Z.of_nat (S remaining) = max_retries - attempt ->
  exists v l k,
    fst (attempts_from P cfg (S remaining) attempt max_retries s) = Ok v /\
    self (snd (attempts_from P cfg (S remaining) attempt max_retries s))
    = self s /\
    log (snd (attempts_from P cfg (S remaining) attempt max_retries s))
    = log s ++ l /\
    ((fst v = true /\ In (snd v) success_reasons /\ (k <= remaining)%nat /\
      (marks l = failed_rounds k delay ++ [Check] \/
       marks l = failed_rounds k delay ++ [Check; Pull])) \/
     (fst v = false /\ failure_reason (snd v) /\
      marks l = spaced_rounds (S remaining) delay)).
Proof.
  induction remaining as [|remaining IH]; intros attempt max_retries s Hd Hleft.
  - destruct (round_summary attempt max_retries s Hd)
      as (r & l & Hr & Hself & Hl & Hshape).
    rewrite attempts_from_step.
    destruct (attempt_once P cfg attempt max_retries s) as [o s1].
    cbn [fst snd] in *. subst o.
    destruct r as [v|].
    + exists v, l, 0%nat. cbn [fst snd].
      split; [reflexivity|]. split; [assumption|]. split; [assumption|].
      destruct Hshape as [(Hv & Hin & Hm)|(Hv & Hwhy & _ & Hm)].
      * left. repeat (split; [assumption|]). split; [lia|]. exact Hm.
      * right. repeat (split; [assumption|]). exact Hm.
    + destruct Hshape as [Hlt _]. apply Z.ltb_lt in Hlt. lia.
  - destruct (round_summary attempt max_retries s Hd)
      as (r & l & Hr & Hself & Hl & Hshape).
    rewrite attempts_from_step.
    destruct (attempt_once P cfg attempt max_retries s) as [o s1].
    cbn [fst snd] in *. subst o.
    destruct r as [v|].
    + exists v, l, 0%nat. unfold ret. cbn [fst snd].
      split; [reflexivity|]. split; [assumption|]. split; [assumption|].
      destruct Hshape as [(Hv & Hin & Hm)|(Hv & Hwhy & Hlast & _)].
      * left. repeat (split; [assumption|]). split; [lia|]. exact Hm.
      * apply Z.ltb_ge in Hlast. lia.
    + destruct Hshape as [_ Hm].
      destruct (IH (attempt + 1) max_retries s1 Hd ltac:(lia))
        as (v & l' & k & Hv & Hself' & Hl' & Hshape').
      exists v, (l ++ l'), (S k).
      split; [exact Hv|]. split; [congruence|].
      split; [rewrite Hl', Hl; apply eq_sym, app_assoc|].
      rewrite marks_app, Hm.
      destruct Hshape' as [(Ht & Hin & Hk & Hm')|(Hf & Hwhy & Hm')].
      * left. repeat (split; [assumption|]). split; [lia|].
        unfold failed_rounds. cbn [repeat concat]. fold (failed_rounds k delay).
        rewrite <- !app_assoc. cbn [app].
        destruct Hm' as [->| ->]; [left|right]; reflexivity.
      * right. repeat (split; [assumption|]).
        rewrite Hm', spaced_rounds_step. reflexivity.
Qed.

(** With a negative delay a round that would wait raises instead. *)
Lemma round_without_wait (attempt max_retries : Z) (s : state P O) :
  delay < 0 ->
  attempt < max_retries - 1 ->
  exists l,
    log (snd (attempt_once P cfg attempt max_retries s)) = log s ++ l /\
    self (snd (attempt_once P cfg attempt max_retries s)) = self s /\
    (marks l = [Check] \/ marks l = [Check; Pull]) /\
    ((exists reason,
        fst (attempt_once P cfg attempt max_retries s)
        = Ok (Return (true, reason)) /\ In reason success_reasons) \/
     fst (attempt_once P cfg attempt max_retries s)
     = Raise (lit "sleep length must be non-negative")).
Proof.
  intros Hd Hlt. apply Z.ltb_lt in Hd, Hlt.
  unfold attempt_once, attempt_body. unfold_monad. fold delay.
  rewrite Hd, Hlt. walk_process P.
  all: use_states; eexists; (split; [reflexivity|]); (split; [reflexivity|]).
  all: use_logs.
  all: split; [first [left; reflexivity|right; reflexivity]|].
  all: first [right; reflexivity
             |left; eexists; split; [reflexivity|cbn; tauto]].
Qed.

End Rounds.

(** X11. When [retry_delay] is not negative and at least one round is
    allowed, [handle_conflicts] never raises and leaves [self] alone, in
    any repository.  A success comes after some rounds that each failed
    and waited, fewer than the number allowed, and ends with a check or
    with a check and a pull.  A failure is returned only after every
    allowed round has run a check and a pull, with a wait of [retry_delay]
    between two rounds and none after the last. *)
Theorem handle_conflicts_rounds (P : Platform) (cfg : conflict_config)
    (O : Type) (max_retries : option Z) (s : state P O) :
  0 <= get (retry_delay cfg) 2 ->
  1 <= effective_retries cfg max_retries ->
  exists v l k,
    fst (handle_conflicts P cfg max_retries s) = Ok v /\
    self (snd (handle_conflicts P cfg max_retries s)) = self s /\
    log (snd (handle_conflicts P cfg max_retries s)) = log s ++ l /\
    ((fst v = true /\ In (snd v) success_reasons /\
      (k < Z.to_nat (effective_retries cfg max_retries))%nat /\
      (marks l = failed_rounds k (get (retry_delay cfg) 2) ++ [Check] \/
       marks l = failed_rounds k (get (retry_delay cfg) 2) ++ [Check; Pull])) \/
     (fst v = false /\ failure_reason (snd v) /\
      marks l = spaced_rounds (Z.to_nat (effective_retries cfg max_retries))
                  (get (retry_delay cfg) 2))).
Proof.
  intros Hd Hn. unfold handle_conflicts.
  set (n := effective_retries cfg max_retries) in *.
  destruct (Z.to_nat n) as [|remaining] eqn:Hk; [lia|].
  destruct (rounds_summary P cfg O remaining 0 n s Hd ltac:(lia))
    as (v & l & k & Hv & Hself & Hl & Hshape).
  exists v, l, k. repeat (split; [assumption|]).
  destruct Hshape as [(Ht & Hin & Hle & Hm)|Hfail]; [left|right; exact Hfail].
  repeat (split; [assumption|]). split; [lia|exact Hm].
Qed.

Lemma handle_conflicts_rounds_witness :
  exists v l k,
    fst (handle_conflicts Script.platform Demo.retry3 None
           (Script.start tt (Script.at_noon Script.stuck))) = Ok v /\
    self (snd (handle_conflicts Script.platform Demo.retry3 None
                 (Script.start tt (Script.at_noon Script.stuck)))) = tt /\
    log (snd (handle_conflicts Script.platform Demo.retry3 None
                (Script.start tt (Script.at_noon Script.stuck)))) = [] ++ l /\
    ((fst v = true /\ In (snd v) success_reasons /\
      (k < 3)%nat /\
      (marks l = failed_rounds k 2 ++ [Check] \/
       marks l = failed_rounds k 2 ++ [Check; Pull])) \/
     (fst v = false /\ failure_reason (snd v) /\
      marks l = spaced_rounds 3 2)).
Proof.
  apply (handle_conflicts_rounds Script.platform Demo.retry3 unit None
           (Script.start tt (Script.at_noon Script.stuck))).
  - vm_compute. discriminate.
  - vm_compute. discriminate.
Defined.

(** A repository without a conflict: success after one check. *)
Example calm_needs_no_round :
  fst (handle_conflicts Script.platform Demo.retry3 None
         (Script.start tt (Script.at_noon Script.calm)))
  = Ok (true, Msg.ready_to_commit) /\
  marks (log (snd (handle_conflicts Script.platform Demo.retry3 None
                     (Script.start tt (Script.at_noon Script.calm)))))
  = [Check].
Proof. split; vm_compute; reflexivity. Qed.

(** X12. The statement after the loop of [handle_conflicts], which
    returns [False] with the reason that the maximum number of retries is
    reached, is executed exactly when the number of retries in effect is
    zero or negative.  With one round or more the function always returns
    from inside the loop, and never with that reason. *)
Theorem max_retries_reached_only_without_rounds (P : Platform)
    (cfg : conflict_config) (O : Type) (max_retries : option Z)
    (s : state P O) :
  0 <= get (retry_delay cfg) 2 ->
  (effective_retries cfg max_retries <= 0 ->
   handle_conflicts P cfg max_retries s
   = (Ok (false, Msg.max_retries_reached), s)) /\
  ((exists flag, fst (handle_conflicts P cfg max_retries s)
                 = Ok (flag, Msg.max_retries_reached)) ->
   effective_retries cfg max_retries <= 0).
Proof.
  intros Hd. split.
  - intros Hn. unfold handle_conflicts.
    destruct (Z.to_nat (effective_retries cfg max_retries)) eqn:Hk; [|lia].
    reflexivity.
  - intros [flag Hres].
    destruct (Z_le_gt_dec (effective_retries cfg max_retries) 0) as [|Hn];
      [assumption|exfalso].
    unfold handle_conflicts in Hres.
    set (n := effective_retries cfg max_retries) in *.
    destruct (Z.to_nat n) as [|remaining] eqn:Hk; [lia|].
    destruct (rounds_summary P cfg O remaining 0 n s Hd ltac:(lia))
      as (v & l & k & Hv & _ & _ & Hshape).
    rewrite Hres in Hv. injection Hv as <-. cbn [fst snd] in Hshape.
    destruct Hshape as [(_ & Hin & _)|(_ & (detail & [Hw|Hw]) & _)].
    + cbn in Hin. destruct Hin as [H|[H|[H|[]]]]; discriminate H.
    + discriminate Hw.
    + discriminate Hw.
Qed.

Lemma max_retries_reached_only_without_rounds_witness :
  effective_retries no_retries None <= 0 /\
  handle_conflicts Script.platform no_retries None
    (Script.start tt (Script.at_noon Script.stuck))
  = (Ok (false, Msg.max_retries_reached),
     Script.start tt (Script.at_noon Script.stuck)).
Proof.
  split; [vm_compute; discriminate|].
  apply (max_retries_reached_only_without_rounds Script.platform no_retries
           unit None (Script.start tt (Script.at_noon Script.stuck))).
  - vm_compute. discriminate.
  - vm_compute. discriminate.
Defined.

(** X13. When [git fetch] exits with an error, [check_for_conflicts]
    returns [False] with the error text after that one command, and
    [handle_conflicts], which takes [False] for the absence of a conflict,
    returns success with the reason that there is no conflict and the
    commit can go ahead, without a pull and without a wait. *)
Theorem failed_fetch_counts_as_ready (P : Platform) (cfg : conflict_config)
    (O : Type) (max_retries : option Z) (s : state P O)
    (fetched : CompletedProcess) (w : World P) :
  subprocess_run P Git.fetch no_opts (world s) = (Ok fetched, w) ->
  ok fetched = false ->
  1 <= effective_retries cfg max_retries ->
  check_for_conflicts P None s
  = (Ok (false, Msg.fetch_failed ++ stderr fetched),
     {| self := self s; world := w;
        log := log s ++ [Ran Git.fetch no_opts (Ok fetched)] |}) /\
  handle_conflicts P cfg max_retries s
  = (Ok (true, Msg.ready_to_commit),
     {| self := self s; world := w;
        log := log s ++ [Ran Git.fetch no_opts (Ok fetched)] |}).
Proof.
  intros Hrun Hfail Hn.
  assert (Hcheck : check_for_conflicts P None s
                   = (Ok (false, Msg.fetch_failed ++ stderr fetched),
                      {| self := self s; world := w;
                         log := log s ++ [Ran Git.fetch no_opts (Ok fetched)] |})).
  { unfold check_for_conflicts. unfold_monad. rewrite Hrun. tidy.
    rewrite Hfail. reflexivity. }
  split; [exact Hcheck|].
  unfold handle_conflicts.
  destruct (Z.to_nat (effective_retries cfg max_retries)) as [|remaining] eqn:Hk;
    [lia|].
  cbn [attempts_from]. unfold attempt_once, attempt_body. unfold_monad.
  rewrite Hcheck. reflexivity.
Qed.

Lemma failed_fetch_counts_as_ready_witness :
  check_for_conflicts no_repository None
    (begin (Script.exit1 [] (lit "fatal: not a git repository")) tt)
  = (Ok (false, Msg.fetch_failed ++ lit "fatal: not a git repository"),
     @Build_state no_repository unit tt tt
       ([] ++ [Ran Git.fetch no_opts
                 (Script.exit1 [] (lit "fatal: not a git repository"))])) /\
  handle_conflicts no_repository Demo.retry3 None
    (begin (Script.exit1 [] (lit "fatal: not a git repository")) tt)
  = (Ok (true, Msg.ready_to_commit),
     @Build_state no_repository unit tt tt
       ([] ++ [Ran Git.fetch no_opts
                 (Script.exit1 [] (lit "fatal: not a git repository"))])).
Proof.
  apply (failed_fetch_counts_as_ready no_repository Demo.retry3 unit None
           (begin (Script.exit1 [] (lit "fatal: not a git repository")) tt)
           {| returncode := 1; stdout := [];
              stderr := lit "fatal: not a git repository" |} tt).
  - reflexivity.
  - reflexivity.
  - vm_compute. discriminate.
Defined.

(** X14. With a negative [retry_delay] and two rounds or more,
    [handle_conflicts] never gets to a second round and never returns a
    failure: the first round either succeeds or ends in the [ValueError]
    of [time.sleep], which leaves the function because the handler of the
    round sleeps again. *)
Theorem negative_delay_raises (P : Platform) (cfg : conflict_config)
    (O : Type) (max_retries : option Z) (s : state P O) :
  get (retry_delay cfg) 2 < 0 ->
  2 <= effective_retries cfg max_retries ->
  exists l,
    log (snd (handle_conflicts P cfg max_retries s)) = log s ++ l /\
    self (snd (handle_conflicts P cfg max_retries s)) = self s /\
    (marks l = [Check] \/ marks l = [Check; Pull]) /\
    ((exists reason,
        fst (handle_conflicts P cfg max_retries s) = Ok (true, reason) /\
        In reason success_reasons) \/
     fst (handle_conflicts P cfg max_retries s)
     = Raise (lit "sleep length must be non-negative")).
Proof.
  intros Hd Hn. unfold handle_conflicts.
  set (n := effective_retries cfg max_retries) in *.
  destruct (Z.to_nat n) as [|remaining] eqn:Hk; [lia|].
  destruct (round_without_wait P cfg O 0 n s Hd ltac:(lia))
    as (l & Hl & Hself & Hm & Hres).
  rewrite attempts_from_step.
  destruct (attempt_once P cfg 0 n s) as [o s1]. cbn [fst snd] in *.
  exists l. destruct Hres as [(reason & -> & Hin)| ->]; cbn [fst snd].
  - repeat (split; [assumption|]). left. now exists reason.
  - repeat (split; [assumption|]). now right.
Qed.

Lemma negative_delay_raises_witness :
  exists l,
    log (snd (handle_conflicts Script.platform negative_delay None
                (Script.start tt (Script.at_noon Script.stuck)))) = [] ++ l /\
    self (snd (handle_conflicts Script.platform negative_delay None
                 (Script.start tt (Script.at_noon Script.stuck)))) = tt /\
    (marks l = [Check] \/ marks l = [Check; Pull]) /\
    ((exists reason,
        fst (handle_conflicts Script.platform negative_delay None
               (Script.start tt (Script.at_noon Script.stuck)))
        = Ok (true, reason) /\
        In reason success_reasons) \/
     fst (handle_conflicts Script.platform negative_delay None
            (Script.start tt (Script.at_noon Script.stuck)))
     = Raise (lit "sleep length must be non-negative")).
Proof.
  apply (negative_delay_raises Script.platform negative_delay unit None
           (Script.start tt (Script.at_noon Script.stuck))).
  - reflexivity.
  - vm_compute. discriminate.
Defined.

(** In the repository whose conflict stays, the error leaves the
    function after one check and one pull. *)
Example stuck_with_negative_delay :
  fst (handle_conflicts Script.platform negative_delay None
         (Script.start tt (Script.at_noon Script.stuck)))
  = Raise (lit "sleep length must be non-negative") /\
  marks (log (snd (handle_conflicts Script.platform negative_delay None
                     (Script.start tt (Script.at_noon Script.stuck)))))
  = [Check; Pull].
Proof. split; vm_compute; reflexivity. Qed.

(** ** Messages and branches of committed changes *)

Lemma committed_app l1 l2 :
  committed_messages (l1 ++ l2) = committed_messages l1 ++ committed_messages l2.
Proof. unfold committed_messages. apply flat_map_app. Qed.

Lemma committed_printed n : committed_messages [Printed n] = [].
Proof. reflexivity. Qed.
Lemma committed_add o r : committed_messages [Ran Git.add o r] = [].
Proof. reflexivity. Qed.
Lemma committed_commit m o r : committed_messages [Ran (Git.commit m) o r] = [m].
Proof. reflexivity. Qed.
Lemma committed_push o r : committed_messages [Ran Git.push o r] = [].
Proof. reflexivity. Qed.
Lemma committed_push_to b o r : committed_messages [Ran (Git.push_to b) o r] = [].
Proof. reflexivity. Qed.
Lemma committed_status o r : committed_messages [Ran Git.status o r] = [].
Proof. reflexivity. Qed.
Lemma committed_show_current o r :
  committed_messages [Ran Git.show_current o r] = [].
Proof. reflexivity. Qed.

#[local] Hint Rewrite committed_app committed_printed committed_add
  committed_commit committed_push committed_push_to committed_status
  committed_show_current : logs.

(** A stretch of log without a pipeline step hands no message to
    [git commit]. *)
Lemma no_pipeline_no_message l : pipeline l = [] -> committed_messages l = [].
Proof.
  induction l as [|ev l IH]; [reflexivity|].
  change (ev :: l) with ([ev] ++ l). rewrite pipeline_app, committed_app.
  intros H. apply app_eq_nil in H as [Hev Hl]. rewrite (IH Hl), app_nil_r.
  destruct ev as [argv o r| |]; try reflexivity.
  destruct argv as [|a0 [|sub [|a2 [|message [|a4 rest]]]]]; try reflexivity.
  cbn [committed_messages flat_map app].
  cbn [pipeline flat_map pipeline_step subcommand nth] in Hev.
  destruct (str_eqb sub (lit "add")); [discriminate|].
  destruct (str_eqb sub (lit "commit")); [discriminate|reflexivity].
Qed.







(** On [main] with only [develop] allowed nothing is staged. *)
Example other_branch_is_refused :
  log (snd (AutoCommit.commit_changes Script.platform (Demo.auto [lit "develop"])
              (Script.start tt (Script.at_noon Script.calm))))
  = [Ran Git.status (in_dir (lit ".")) (Script.exit0 (lit " M a.py"));
     Ran Git.show_current (in_dir (lit ".")) (Script.exit0 (lit "main"));
     Printed (BranchNotAllowed (lit "main"))].
Proof. vm_compute. reflexivity. Qed.

(** X17. With a [max_message_length] of three or more, every message
    that [process_changes] hands to [git commit] is within that length;
    there is at most one, and it is the one announced before the conflict
    check. *)
Theorem flush_commits_within_cap (P : Platform) (cfg : Enhanced.config)
    (s : state P Enhanced.automation) :
  3 <= get (max_message_length (Enhanced.commit_generation cfg)) 100 ->
  exists l,
    log (snd (Enhanced.process_changes P cfg s)) = log s ++ l /\
    (length (committed_messages l) <= 1)%nat /\
    Forall (fun m =>
              len m <= get (max_message_length (Enhanced.commit_generation cfg)) 100 /\
              In (Printed (Preparing m)) l)
           (committed_messages l).
Proof.
  intros Hcap.
  unfold Enhanced.process_changes, Enhanced.enter_flush. unfold_monad.
  destruct (Enhanced.processing_changes (self s) ||
            negb (0 <? length (Enhanced.pending_changes (self s)))%nat); tidy.
  - exists []. rewrite app_nil_r. split; [reflexivity|].
    split; [cbn; lia|constructor].
  - unfold Enhanced.flush, Enhanced.flush_body, Enhanced.clear_pending,
      Enhanced.stamp_commit_time, Enhanced.auth_config, generate_commit_message.
    unfold_monad. walk_process P.
    all: use_states; eexists; (split; [reflexivity|]).
    all: autorewrite with logs.
    all: repeat match goal with
         | H : pipeline ?l = [] |- _ =>
             rewrite (no_pipeline_no_message l H); clear H
         end.
    all: cbn [app length].
    all: split; [lia|].
    all: repeat constructor.
    all: try (now apply limit_length_bound).
    all: rewrite ?in_app_iff; cbn [In]; tauto.
Qed.

Lemma flush_commits_within_cap_witness :
  exists l,
    log (snd (Enhanced.process_changes Script.platform (Demo.enhanced false)
                (Script.start Demo.one_pending (Script.at_noon Script.calm))))
    = [] ++ l /\
    (length (committed_messages l) <= 1)%nat /\
    Forall (fun m => len m <= 100 /\ In (Printed (Preparing m)) l)
           (committed_messages l).
Proof.
  apply (flush_commits_within_cap Script.platform (Demo.enhanced false)
           (Script.start Demo.one_pending (Script.at_noon Script.calm))).
  vm_compute. discriminate.
Defined.

(** ** The authentication settings *)


(** X19. In token mode, when the token file exists and can be read, the
    stripped token is passed to [echo] as an argument in a subprocess whose
    output is not captured, after [GIT_TERMINAL_PROMPT] has been set in
    the environment of the program itself.  The two token entries are
    returned whether or not [echo] could be run; the success flag is set
    when it could, or else when one of the two environment variables holds
    a token. *)
Theorem token_file_is_echoed (os : Auth.OS) (m : Auth.manager)
    (w : Auth.Sys os) (text : str) :
  Auth.auth_method m = lit "token" ->
  Auth.path_exists os (Auth.token_file m) w = true ->
  Auth.read_text os (Auth.token_file m) w = Ok text ->
  let exported := Auth.setenv os (lit "GIT_TERMINAL_PROMPT") (lit "0") w in
  let echoed := Auth.run_checked os [lit "echo"; strip text] exported in
  let r := Auth.get_auth_config os m w in
  Auth.effects r
  = [Auth.Exported (lit "GIT_TERMINAL_PROMPT") (lit "0");
     Auth.Echoed [lit "echo"; strip text] (fst echoed)] /\
  Auth.after r = snd echoed /\
  Auth.auth_config r = Auth.token_entries [] /\
  (Auth.auth_success r = true <->
   (exists u, fst echoed = Ok u) \/
   truthy (get (Auth.or_else
                  (Auth.getenv os (lit "GITHUB_TOKEN") (snd echoed))
                  (Auth.getenv os (lit "GIT_PASSWORD") (snd echoed))) [])
   = true).
Proof.
  intros Hmethod Hfile Hread. cbv zeta.
  unfold Auth.get_auth_config, Auth.from_token_file.
  rewrite Hmethod, Hfile, Hread.
  change (str_eqb (lit "token") (lit "token")) with true. cbv iota.
  destruct (Auth.run_checked os [lit "echo"; strip text]
              (Auth.setenv os (lit "GIT_TERMINAL_PROMPT") (lit "0") w))
    as [[u|e] w2];
    cbn [Auth.auth_success Auth.auth_config Auth.after Auth.effects negb
         fst snd].
  - repeat split; try reflexivity. left. now exists u.
  - destruct (truthy (get (Auth.or_else _ _) [])) eqn:Henv;
      cbn [Auth.auth_success Auth.auth_config Auth.after Auth.effects].
    + repeat split; try reflexivity. now right.
    + repeat split; try reflexivity; try discriminate.
      intros [[u Hu]|Hn]; discriminate.
Qed.

(** A token file on a machine without [echo] and without a token in the
    environment: the entries are returned, the flag is not set. *)
Lemma token_file_is_echoed_witness :
  Auth.effects (Auth.get_auth_config Auth.scripted Auth.by_token Auth.no_echo)
  = [Auth.Exported (lit "GIT_TERMINAL_PROMPT") (lit "0");
     Auth.Echoed [lit "echo"; lit "s3cret"]
       (Raise (lit "[Errno 2] No such file or directory: 'echo'"))] /\
  Auth.auth_config (Auth.get_auth_config Auth.scripted Auth.by_token Auth.no_echo)
  = [(lit "GIT_TERMINAL_PROMPT", lit "0"); (lit "GIT_ASKPASS", lit "echo")] /\
  Auth.auth_success (Auth.get_auth_config Auth.scripted Auth.by_token Auth.no_echo)
  = false.
Proof.
  destruct (token_file_is_echoed Auth.scripted Auth.by_token Auth.no_echo
              (lit "s3cret" ++ [newline]))
    as (Heffects & _ & Hconfig & _).
  - reflexivity.
  - reflexivity.
  - reflexivity.
  - split; [exact Heffects|]. split; [exact Hconfig|]. reflexivity.
Defined.

(** ** The prefix of a flush *)

Lemma parse_status_line_type (line : str) :
  In (Enhanced.type (Enhanced.parse_status_line line)) line_types.
Proof.
  unfold Enhanced.parse_status_line. cbn [Enhanced.type].
  repeat match goal with
         | |- context [if ?b then _ else _] => destruct b
         end; cbn; tauto.
Qed.

(** X20. The change type that [process_changes] passes to the message
    generator for the lines of a status output is one of the five types of
    a line or ['mixed'].  The generator has a prefix of its own for each of
    them but ['copied']: the message of a flush starts with the general
    prefix exactly when every change of the flush is a copy. *)
Theorem copies_get_the_general_prefix (lines : list str) :
  In (Enhanced.primary_change_type (map Enhanced.parse_status_line lines))
     (lit "mixed" :: line_types) /\
  (dict_get type_prefixes
     (Enhanced.primary_change_type (map Enhanced.parse_status_line lines))
     default_prefix = default_prefix <->
   Enhanced.primary_change_type (map Enhanced.parse_status_line lines)
   = lit "copied") /\
  (Enhanced.primary_change_type (map Enhanced.parse_status_line lines)
   = lit "copied" ->
   lines <> [] /\
   forall line, In line lines ->
     Enhanced.type (Enhanced.parse_status_line line) = lit "copied").
Proof.
  assert (Hin : In (Enhanced.primary_change_type
                      (map Enhanced.parse_status_line lines))
                   (lit "mixed" :: line_types)).
  { unfold Enhanced.primary_change_type.
    destruct (nodup (list_eq_dec N.eq_dec)
                (map Enhanced.type (map Enhanced.parse_status_line lines)))
      as [|t [|t' l]] eqn:E; try (left; reflexivity).
    right.
    assert (Ht : In t (map Enhanced.type
                         (map Enhanced.parse_status_line lines))).
    { apply (nodup_In (list_eq_dec N.eq_dec)). rewrite E. now left. }
    rewrite map_map in Ht. apply in_map_iff in Ht as (line & <- & _).
    apply parse_status_line_type. }
  split; [exact Hin|]. split.
  - cbn [In line_types map] in Hin.
    destruct Hin as [H|[H|[H|[H|[H|[H|[]]]]]]]; rewrite <- H;
      split; intros E; try reflexivity; vm_compute in E; discriminate E.
  - intros Hcopied. unfold Enhanced.primary_change_type in Hcopied.
    destruct (nodup (list_eq_dec N.eq_dec)
                (map Enhanced.type (map Enhanced.parse_status_line lines)))
      as [|t [|t' l]] eqn:E; try discriminate Hcopied.
    subst t. split.
    + intros ->. discriminate E.
    + intros line Hline.
      assert (Ht : In (Enhanced.type (Enhanced.parse_status_line line))
                      (nodup (list_eq_dec N.eq_dec)
                         (map Enhanced.type
                            (map Enhanced.parse_status_line lines)))).
      { apply nodup_In. apply in_map. apply in_map. exact Hline. }
      rewrite E in Ht. destruct Ht as [<-|[]]. reflexivity.
Qed.
